(** * The morpheusvm controller: lifecycle adapter of a hypersdk VM

    A shallow embedding of [controller.Controller] (methods [Initialize],
    [Rules], [StateManager], [Accepted], [Shutdown]) and of the package-level
    registries of [consts].

    Go pointers are [option]s ([None] is [nil]); a call that returns
    [(value, error)] is a sum; a run-time panic is an explicit exit.  The
    database engine, the parsers and the constructors of the other packages
    are collaborators: their results are taken from a record of oracles, so
    that every theorem holds for whatever they answer. *)

From stdpp Require Import base option list gmap strings.
From Stdlib Require Import NArith ZArith Lia.

Open Scope string_scope.
Open Scope list_scope.

(** ** Errors *)

(** [errors.New] and [fmt.Errorf("ctx: %w", cause)]. *)
Inductive Error : Type :=
| ErrNew (msg : string)
| ErrWrap (ctx : string) (cause : Error).

(** Whether an error carries a context added by [fmt.Errorf]. *)
Definition is_wrapped (e : Error) : bool :=
  match e with
  | ErrNew _ => false
  | ErrWrap _ _ => true
  end.

(** What stops a goroutine instead of returning. *)
Inductive PanicReason : Type :=
| IndexOutOfRange (index len : nat)
| NilDereference.

(** How a method leaves: [Return None] is [return nil]. *)
Inductive Exit : Type :=
| Return (err : option Error)
| Panicked (why : PanicReason).

(** ** Blocks, transactions, results *)

(** [ids.ID]: 32 bytes, read as one number. *)
Definition ID := N.

(** The action list of a transaction is matched by dynamic type; only
    [*actions.Transfer] is recognised by the controller. *)
Inductive Action : Type :=
| Transfer (to : N) (value : N)
| OtherAction (typeID : N).

Record Transaction := {
  tx_ID : ID;
  Actions : list Action
}.

(** [chain.Dimensions] *)
Definition Dimensions := list N.

Record Result := {
  Success : bool;
  Units : Dimensions;
  Fee : N
}.

(** A block whose two slices hold no nil pointer, each entry standing for
    what it points to; [PtrBlock] below is the block with its pointers. *)
Record StatelessBlock := {
  Txs : list Transaction;
  Results : list Result;
  GetTimestamp : Z
}.

(** ** Storage *)

Record TxRecord := {
  rec_timestamp : Z;
  rec_success : bool;
  rec_units : Dimensions;
  rec_fee : N
}.

(** The durable key-value contents behind a [database.Database] handle. *)
Abbreviation Store := (gmap ID TxRecord).

(** A [database.Batch]: the writes staged so far, oldest first. *)
Abbreviation Batch := (list (ID * TxRecord)).

(** The database engine decides when a staged write or a commit fails.  A
    failed commit answers with the contents it leaves behind. *)
Record Engine := {
  put_fault : Batch -> ID -> TxRecord -> option Error;
  commit_fault : Store -> Batch -> option (Error * Store)
}.

(** An engine whose failed commits leave the contents as they were. *)
Definition atomic_commit (eng : Engine) : Prop :=
  forall (s : Store) (b : Batch) e s',
    commit_fault eng s b = Some (e, s') -> s' = s.

Definition apply_batch (b : Batch) (s : Store) : Store :=
  foldl (fun acc kv => <[kv.1 := kv.2]> acc) s b.

(** ** Controller state *)

Record Config := {
  LogLevel : N;
  TestMode : bool;
  StoreTransactions : bool
}.

Record metrics := {
  transfer : N
}.

Definition Inc (m : metrics) : metrics := {| transfer := transfer m + 1 |}.

Record VM := { vm_handle : N }.

Record SnowContext := {
  NetworkID : N;
  ChainID : ID;
  ChainDataDir : string
}.

Record Genesis := { genesis_raw : list Byte.byte }.

Inductive StateManager : Type := StateManager_empty.

Record Controller := {
  inner : option VM;
  snowCtx : option SnowContext;
  genesis : option Genesis;
  config : option Config;
  stateManager : option StateManager;
  c_metrics : option metrics;
  db : option Store
}.

(** [&Controller{}] *)
Definition Controller_zero : Controller :=
  {| inner := None; snowCtx := None; genesis := None; config := None;
     stateManager := None; c_metrics := None; db := None |}.

Definition set_inner v (c : Controller) : Controller :=
  {| inner := v; snowCtx := snowCtx c; genesis := genesis c; config := config c;
     stateManager := stateManager c; c_metrics := c_metrics c; db := db c |}.
Definition set_snowCtx v (c : Controller) : Controller :=
  {| inner := inner c; snowCtx := v; genesis := genesis c; config := config c;
     stateManager := stateManager c; c_metrics := c_metrics c; db := db c |}.
Definition set_genesis v (c : Controller) : Controller :=
  {| inner := inner c; snowCtx := snowCtx c; genesis := v; config := config c;
     stateManager := stateManager c; c_metrics := c_metrics c; db := db c |}.
Definition set_config v (c : Controller) : Controller :=
  {| inner := inner c; snowCtx := snowCtx c; genesis := genesis c; config := v;
     stateManager := stateManager c; c_metrics := c_metrics c; db := db c |}.
Definition set_stateManager v (c : Controller) : Controller :=
  {| inner := inner c; snowCtx := snowCtx c; genesis := genesis c; config := config c;
     stateManager := v; c_metrics := c_metrics c; db := db c |}.
Definition set_metrics v (c : Controller) : Controller :=
  {| inner := inner c; snowCtx := snowCtx c; genesis := genesis c; config := config c;
     stateManager := stateManager c; c_metrics := v; db := db c |}.
Definition set_db v (c : Controller) : Controller :=
  {| inner := inner c; snowCtx := snowCtx c; genesis := genesis c; config := config c;
     stateManager := stateManager c; c_metrics := c_metrics c; db := v |}.

(** ** The commit pipeline *)

Module Storage.

(** Modelled from the spec: [storage.StoreTransaction] is not among the
    sources.  It stages one write into the batch, keyed by the transaction
    id, whose value holds the timestamp, the success flag, the units and the
    fee; the error of the write is its error. *)
Definition StoreTransaction (eng : Engine) (batch : Batch) (id : ID) (t : Z)
    (success : bool) (units : Dimensions) (fee : N) : Error + Batch :=
  let v := {| rec_timestamp := t; rec_success := success;
              rec_units := units; rec_fee := fee |} in
  match put_fault eng batch id v with
  | Some e => inl e
  | None => inr (batch ++ [(id, v)])
  end.

End Storage.

(** How one pass over the transactions ends. *)
Inductive LoopExit : Type :=
| LoopDone
| LoopReturn (e : Error)
| LoopPanic (why : PanicReason).

Section Accepted.

Variable eng : Engine.

(** [batch.Write()]: all staged writes at once, or the engine's error. *)
Definition Write (s : Store) (batch : Batch) : option Error * Store :=
  match commit_fault eng s batch with
  | Some (e, s') => (Some e, s')
  | None => (None, apply_batch batch s)
  end.

(** The inner loop [for _, action := range tx.Actions]: the type switch has
    the single case [*actions.Transfer]; [c.metrics.transfer.Inc()] needs
    [c.metrics]. *)
Fixpoint count_actions (acts : list Action) (m : option metrics)
    : option PanicReason * option metrics :=
  match acts with
  | [] => (None, m)
  | Transfer _ _ :: rest =>
      match m with
      | None => (Some NilDereference, m)
      | Some mv => count_actions rest (Some (Inc mv))
      end
  | OtherAction _ :: rest => count_actions rest m
  end.

(** The loop [for i, tx := range blk.Txs], entered at index [i] with the
    transactions still to visit. *)
Fixpoint Accepted_loop (cfg : option Config) (t : Z) (results : list Result)
    (i : nat) (txs : list Transaction) (m : option metrics) (batch : Batch)
    : LoopExit * option metrics * Batch :=
  match txs with
  | [] => (LoopDone, m, batch)
  | tx :: rest =>
      match results !! i with
      | None => (LoopPanic (IndexOutOfRange i (length results)), m, batch)
      | Some result =>
          match cfg with
          | None => (LoopPanic NilDereference, m, batch)
          | Some cf =>
              let staged :=
                if StoreTransactions cf
                then Storage.StoreTransaction eng batch (tx_ID tx) t
                       (Success result) (Units result) (Fee result)
                else inr batch in
              match staged with
              | inl e => (LoopReturn e, m, batch)
              | inr batch' =>
                  let counted :=
                    if Success result then count_actions (Actions tx) m
                    else (None, m) in
                  match counted with
                  | (Some why, m') => (LoopPanic why, m', batch')
                  | (None, m') =>
                      Accepted_loop cfg t results (S i) rest m' batch'
                  end
              end
          end
      end
  end.

(** [Accepted]: the batch is local, [defer batch.Reset()] drops it on every
    way out; only [batch.Write()] touches the contents. *)
Definition Accepted (c : Controller) (blk : StatelessBlock) : Exit * Controller :=
  match db c with
  | None => (Panicked NilDereference, c)
  | Some s =>
      let batch : Batch := [] in
      match Accepted_loop (config c) (GetTimestamp blk) (Results blk) 0
              (Txs blk) (c_metrics c) batch with
      | (LoopReturn e, m, _) => (Return (Some e), set_metrics m c)
      | (LoopPanic why, m, _) => (Panicked why, set_metrics m c)
      | (LoopDone, m, staged) =>
          let '(err, s') := Write s staged in
          (Return err, set_db (Some s') (set_metrics m c))
      end
  end.

End Accepted.

(** What a block is expected to leave behind. *)

(** The record of one transaction and its result, as [Accepted] passes them
    to [storage.StoreTransaction]. *)
Definition archive_record (t : Z) (tx : Transaction) (r : Result) : ID * TxRecord :=
  (tx_ID tx, {| rec_timestamp := t; rec_success := Success r;
                rec_units := Units r; rec_fee := Fee r |}).

Definition archive_records (t : Z) (txs : list Transaction) (rs : list Result)
    : Batch :=
  zip_with (archive_record t) txs rs.

Definition is_transfer (a : Action) : bool :=
  match a with
  | Transfer _ _ => true
  | OtherAction _ => false
  end.

(** The transfer actions of one action list. *)
Definition transfers_in (acts : list Action) : N :=
  N.of_nat (length (List.filter is_transfer acts)).

(** The transfer actions of the successful transactions. *)
Fixpoint transfer_actions (txs : list Transaction) (rs : list Result) : N :=
  match txs, rs with
  | tx :: txs', r :: rs' =>
      ((if Success r then transfers_in (Actions tx) else 0)
       + transfer_actions txs' rs')%N
  | _, _ => 0%N
  end.

(** The successful transactions whose action list contains a transfer: each
    counts once, whatever the number of its transfers. *)
Fixpoint qualifying_transactions (txs : list Transaction) (rs : list Result) : N :=
  match txs, rs with
  | tx :: txs', r :: rs' =>
      ((if Success r && existsb is_transfer (Actions tx) then 1 else 0)
       + qualifying_transactions txs' rs')%N
  | _, _ => 0%N
  end.

(** ** Rules, StateManager, Shutdown *)

Record RuleSet := {
  rules_g : option Genesis;
  rules_networkID : N;
  rules_chainID : ID
}.

Module genesis_pkg.

(** Modelled from the spec: [Genesis.Rules] is not among the sources.  It is
    the projection of the genesis snapshot and the two identifiers into a
    rule set, the same at every timestamp. *)
Definition Rules (g : option Genesis) (t : Z) (networkID : N) (chainID : ID)
    : RuleSet :=
  {| rules_g := g; rules_networkID := networkID; rules_chainID := chainID |}.

End genesis_pkg.

(** [c.genesis.Rules(t, c.snowCtx.NetworkID, c.snowCtx.ChainID)]: the
    arguments read through [c.snowCtx]. *)
Definition Rules (c : Controller) (t : Z) : (PanicReason + RuleSet) * Controller :=
  match snowCtx c with
  | None => (inl NilDereference, c)
  | Some ctx => (inr (genesis_pkg.Rules (genesis c) t (NetworkID ctx) (ChainID ctx)), c)
  end.

Definition StateManager_of (c : Controller) : option StateManager := stateManager c.

Definition Shutdown (c : Controller) : Exit * Controller := (Return None, c).

(** ** Initialization *)

Record Gatherer := { gatherer_handle : N }.

Record Handler := { handler_name : string }.

Inductive JSONRPCServer : Type := NewJSONRPCServer.

Record TypeParser := { registered : list N }.

Record AuthEngine := { engine_typeID : N }.

Record ProposerConfig := {
  GossipProposerDiff : N;
  GossipProposerDepth : N;
  GossipMaxSize : N
}.

(** The strategies, one constructor per implementation. *)
Inductive Builder : Type :=
| NewManual (vm : VM)
| NewTime (vm : VM).

Inductive Gossiper : Type :=
| NewManualGossiper (vm : VM)
| Proposer (vm : VM) (cfg : ProposerConfig).

(** The other packages, as the controller sees them. *)
Record Host := {
  newMetrics : Gatherer -> Error + metrics;
  config_New : list Byte.byte -> Error + Config;
  genesis_New : list Byte.byte -> list Byte.byte -> Error + Genesis;
  hstorage_New : string -> string -> Gatherer -> Error + Store;
  NewJSONRPCHandler : string -> JSONRPCServer -> Error + Handler;
  proposer_fault : VM -> ProposerConfig -> option Error;
  DefaultProposerConfig : ProposerConfig;
  auth_Engines : gmap N AuthEngine;
  consts_Name : string;
  JSONRPCEndpoint : string;
  (** [consts.ActionRegistry] and [consts.AuthRegistry]: package variables,
      [nil] until [controller/registry] sets them. *)
  ActionRegistry : option TypeParser;
  AuthRegistry : option TypeParser
}.

(** Modelled from the spec: [gossiper.NewProposer] is not among the sources.
    It builds the proposer gossiper of the configuration it is given, or
    fails. *)
Definition NewProposer (host : Host) (vm : VM) (cfg : ProposerConfig)
    : Error + Gossiper :=
  match proposer_fault host vm cfg with
  | Some e => inl e
  | None => inr (Proposer vm cfg)
  end.

(** What [Initialize] does to the world outside the controller. *)
Inductive Effect : Type :=
| RegisterMetrics (g : Gatherer)
| SetLevel (lvl : N)
| LogInfo (msg : string)
| OpenStorage (dir name : string).

Record Outputs := {
  out_genesis : option Genesis;
  out_builder : option Builder;
  out_gossiper : option Gossiper;
  out_handlers : option (gmap string Handler);
  out_actionRegistry : option TypeParser;
  out_authRegistry : option TypeParser;
  out_engines : option (gmap N AuthEngine);
  out_err : option Error
}.

(** [return nil, nil, nil, nil, nil, nil, nil, err] *)
Definition failed (e : Error) : Outputs :=
  {| out_genesis := None; out_builder := None; out_gossiper := None;
     out_handlers := None; out_actionRegistry := None; out_authRegistry := None;
     out_engines := None; out_err := Some e |}.

Record InitState := {
  ctrl : Controller;
  effects : list Effect
}.

(** State, with an early [return]. *)
Definition Init (A : Type) : Type := InitState -> (Outputs + A) * InitState.

Definition pure {A} (a : A) : Init A := fun st => (inr a, st).

Definition bind {A B} (m : Init A) (k : A -> Init B) : Init B :=
  fun st =>
    match m st with
    | (inl out, st') => (inl out, st')
    | (inr a, st') => k a st'
    end.

Definition return_ {A} (out : Outputs) : Init A := fun st => (inl out, st).

Definition assign (f : Controller -> Controller) : Init unit :=
  fun st => (inr tt, {| ctrl := f (ctrl st); effects := effects st |}).

Definition emit (e : Effect) : Init unit :=
  fun st => (inr tt, {| ctrl := ctrl st; effects := effects st ++ [e] |}).

Definition read {A} (f : Controller -> A) : Init A :=
  fun st => (inr (f (ctrl st)), st).

Notation "'do' x <- m ; k" := (bind m (fun x => k))
  (at level 10, x name, m at level 100, k at level 200).
Notation "m ;; k" := (bind m (fun _ => k))
  (at level 100, k at level 200, right associativity).

(** [c.field, err = f(...); if err != nil { return nil, ..., wrap(err) }] *)
Definition try_assign {A} (field : option A -> Controller -> Controller)
    (wrap : Error -> Error) (r : Error + A) : Init A :=
  match r with
  | inl e => assign (field None) ;; return_ (failed (wrap e))
  | inr a => assign (field (Some a)) ;; pure a
  end.

(** [x, err := f(...); if err != nil { return nil, ..., err }] *)
Definition try_local {A} (r : Error + A) : Init A :=
  match r with
  | inl e => return_ (failed e)
  | inr a => pure a
  end.

Section Initialize.

Variable host : Host.

(** The body of [Initialize], statement by statement; [inner] and [snowCtx]
    are taken non-nil.  [newMetrics] registers the counters with the
    gatherer and [hstorage.New] opens the chain directory: both are recorded
    as effects when they are called. *)
Definition Initialize_body (inner_ : VM) (snowCtx_ : SnowContext)
    (gatherer : Gatherer) (genesisBytes upgradeBytes configBytes : list Byte.byte)
    : Init Outputs :=
  (* c.inner = inner; c.snowCtx = snowCtx; c.stateManager = &storage.StateManager{} *)
  assign (set_inner (Some inner_)) ;;
  assign (set_snowCtx (Some snowCtx_)) ;;
  assign (set_stateManager (Some StateManager_empty)) ;;
  (* c.metrics, err = newMetrics(gatherer) *)
  emit (RegisterMetrics gatherer) ;;
  do _ <- try_assign set_metrics id (newMetrics host gatherer) ;
  (* c.config, err = config.New(configBytes) *)
  do cfg <- try_assign set_config id (config_New host configBytes) ;
  (* c.snowCtx.Log.SetLevel(c.config.LogLevel); snowCtx.Log.Info(...) *)
  emit (SetLevel (LogLevel cfg)) ;;
  emit (LogInfo "initialized config") ;;
  (* c.genesis, err = genesis.New(genesisBytes, upgradeBytes) *)
  do _ <- try_assign set_genesis (ErrWrap "unable to read genesis")
            (genesis_New host genesisBytes upgradeBytes) ;
  emit (LogInfo "loaded genesis") ;;
  (* c.db, err = hstorage.New(..., snowCtx.ChainDataDir, "db", gatherer) *)
  emit (OpenStorage (ChainDataDir snowCtx_) "db") ;;
  do _ <- try_assign set_db id
            (hstorage_New host (ChainDataDir snowCtx_) "db" gatherer) ;
  (* jsonRPCHandler, err := hrpc.NewJSONRPCHandler(consts.Name, ...) *)
  do jsonRPCHandler <-
     try_local (NewJSONRPCHandler host (consts_Name host) NewJSONRPCServer) ;
  let apis : gmap string Handler := <[JSONRPCEndpoint host := jsonRPCHandler]> ∅ in
  (* if c.config.TestMode { ... } else { ... } *)
  do pair <-
     (if TestMode cfg
      then emit (LogInfo "running build and gossip in test mode") ;;
           pure (NewManual inner_, NewManualGossiper inner_)
      else do gossip <- try_local (NewProposer host inner_ (DefaultProposerConfig host)) ;
           pure (NewTime inner_, gossip)) ;
  (* return c.genesis, build, gossip, apis, consts.ActionRegistry,
            consts.AuthRegistry, auth.Engines(), nil *)
  do g <- read genesis ;
  pure {| out_genesis := g; out_builder := Some pair.1;
          out_gossiper := Some pair.2; out_handlers := Some apis;
          out_actionRegistry := ActionRegistry host;
          out_authRegistry := AuthRegistry host;
          out_engines := Some (auth_Engines host); out_err := None |}.

Definition Initialize (inner_ : VM) (snowCtx_ : SnowContext)
    (gatherer : Gatherer) (genesisBytes upgradeBytes configBytes : list Byte.byte)
    (st : InitState) : Outputs * InitState :=
  match Initialize_body inner_ snowCtx_ gatherer genesisBytes upgradeBytes
          configBytes st with
  | (inl out, st') => (out, st')
  | (inr out, st') => (out, st')
  end.

End Initialize.

(** ** Sample engines, controllers and blocks *)

(** An engine that never fails. *)
Definition engine_ok : Engine :=
  {| put_fault := fun _ _ _ => None; commit_fault := fun _ _ => None |}.

(** An engine that refuses the write after [n] staged ones. *)
Definition engine_full (n : nat) : Engine :=
  {| put_fault := fun b _ _ =>
       if Nat.eqb (length b) n then Some (ErrNew "batch is full") else None;
     commit_fault := fun _ _ => None |}.

(** An engine whose commits fail and change nothing. *)
Definition engine_readonly : Engine :=
  {| put_fault := fun _ _ _ => None;
     commit_fault := fun s _ => Some (ErrNew "database is read-only", s) |}.

Definition config_archive : Config :=
  {| LogLevel := 0; TestMode := false; StoreTransactions := true |}.

Definition config_plain : Config :=
  {| LogLevel := 0; TestMode := false; StoreTransactions := false |}.

Definition controller_with (cf : Config) : Controller :=
  {| inner := Some {| vm_handle := 1 |};
     snowCtx := Some {| NetworkID := 1337; ChainID := 77%N;
                        ChainDataDir := "/chain" |};
     genesis := Some {| genesis_raw := [Byte.x7b; Byte.x7d] |};
     config := Some cf;
     stateManager := Some StateManager_empty;
     c_metrics := Some {| transfer := 0 |};
     db := Some ∅ |}.

(** Three transactions; the second one failed, the third carries an action
    the controller does not know. *)
Definition block3 : StatelessBlock :=
  {| Txs := [ {| tx_ID := 101%N; Actions := [Transfer 7 50] |};
              {| tx_ID := 102%N; Actions := [Transfer 8 60] |};
              {| tx_ID := 103%N; Actions := [OtherAction 9; Transfer 7 1] |} ];
     Results := [ {| Success := true; Units := [5%N]; Fee := 10 |};
                  {| Success := false; Units := [0%N]; Fee := 0 |};
                  {| Success := true; Units := [2%N]; Fee := 1 |} ];
     GetTimestamp := 1000 |}.

(** One successful transaction with two transfers. *)
Definition block_two_transfers : StatelessBlock :=
  {| Txs := [ {| tx_ID := 201%N; Actions := [Transfer 7 50; Transfer 8 60] |} ];
     Results := [ {| Success := true; Units := [3%N]; Fee := 4 |} ];
     GetTimestamp := 2000 |}.

(** More transactions than results, and the other way round. *)
Definition block_short_results : StatelessBlock :=
  {| Txs := Txs block3; Results := take 2 (Results block3); GetTimestamp := 1000 |}.

Definition block_long_results : StatelessBlock :=
  {| Txs := take 2 (Txs block3); Results := Results block3; GetTimestamp := 1000 |}.

(** ** Sample hosts *)

Definition sample_vm : VM := {| vm_handle := 1 |}.

Definition sample_ctx : SnowContext :=
  {| NetworkID := 1337; ChainID := 77%N; ChainDataDir := "/chain" |}.

(** A chain directory that another process holds. *)
Definition locked_ctx : SnowContext :=
  {| NetworkID := 1337; ChainID := 77%N; ChainDataDir := "/locked" |}.

Definition sample_gatherer : Gatherer := {| gatherer_handle := 1 |}.

(** The bytes of [{}] and of [{]. *)
Definition bytes_empty_object : list Byte.byte := [Byte.x7b; Byte.x7d].
Definition bytes_open_brace : list Byte.byte := [Byte.x7b].

(** A host whose configuration parser reads the empty input and [{}] as the
    configuration [cf] and rejects the rest, whose genesis parser rejects the
    empty input, and whose storage refuses the directory [/locked]. *)
Definition sample_host (cf : Config) : Host :=
  {| newMetrics := fun _ => inr {| transfer := 0 |};
     config_New := fun b =>
       match b with
       | [] => inr cf
       | [Byte.x7b; Byte.x7d] => inr cf
       | _ => inl (ErrNew "unexpected end of JSON input")
       end;
     genesis_New := fun g _ =>
       match g with
       | [] => inl (ErrNew "unexpected end of JSON input")
       | _ => inr {| genesis_raw := g |}
       end;
     hstorage_New := fun dir _ _ =>
       if String.eqb dir "/locked"
       then inl (ErrNew "resource temporarily unavailable")
       else inr ∅;
     NewJSONRPCHandler := fun name _ => inr {| handler_name := name |};
     proposer_fault := fun _ _ => None;
     DefaultProposerConfig :=
       {| GossipProposerDiff := 4; GossipProposerDepth := 1;
          GossipMaxSize := 65536 |};
     auth_Engines := {[ 0%N := {| engine_typeID := 0 |} ]};
     consts_Name := "morpheusvm";
     JSONRPCEndpoint := "/morpheusapi";
     ActionRegistry := Some {| registered := [0%N] |};
     AuthRegistry := Some {| registered := [0%N] |} |}.

Definition config_test : Config :=
  {| LogLevel := 0; TestMode := true; StoreTransactions := true |}.

(** The state [vm.New(&Controller{}, ...)] starts from. *)
Definition fresh : InitState := {| ctrl := Controller_zero; effects := [] |}.


(** The controller after the three assignments that open [Initialize]. *)
Definition entered (inner_ : VM) (ctx : SnowContext) (c : Controller)
    : Controller :=
  set_stateManager (Some StateManager_empty)
    (set_snowCtx (Some ctx) (set_inner (Some inner_) c)).

(** Unfolding [Initialize] and splitting on what the collaborators answer. *)
Ltac run_init :=
  unfold Initialize, Initialize_body, bind, try_assign, try_local, assign,
    emit, read, pure, return_, NewProposer; cbn.

Ltac split_collaborators host :=
  repeat match goal with
         | |- context [newMetrics host ?g] =>
             destruct (newMetrics host g) eqn:?; cbn
         | |- context [config_New host ?b] =>
             destruct (config_New host b) eqn:?; cbn
         | |- context [genesis_New host ?g ?u] =>
             destruct (genesis_New host g u) eqn:?; cbn
         | |- context [hstorage_New host ?d ?n ?g] =>
             destruct (hstorage_New host d n g) eqn:?; cbn
         | |- context [NewJSONRPCHandler host ?n ?s] =>
             destruct (NewJSONRPCHandler host n s) eqn:?; cbn
         | |- context [TestMode ?cf] =>
             destruct (TestMode cf) eqn:?; cbn
         | |- context [proposer_fault host ?v ?p] =>
             destruct (proposer_fault host v p) eqn:?; cbn
         end.

(** ** The package [consts] *)

Module consts.

Definition HRP : string := "token".
Definition Name : string := "tokenvm".
Definition Symbol : string := "TKN".
Definition Decimals : N := 9.

(** [ids.IDLen] *)
Definition IDLen : nat := 32.

(** [make([]byte, n)]: [n] zero bytes. *)
Definition make (n : nat) : list Byte.byte := replicate n Byte.x00.

(** [copy(dst, src)]: the first [min (len dst) (len src)] bytes of [dst] are
    replaced by those of [src]; the length of [dst] stays. *)
Definition copy (dst src : list Byte.byte) : list Byte.byte :=
  take (length dst) src ++ drop (length src) dst.

(** How [init] ends: [ID] assigned, or [panic(err)]. *)
Inductive InitExit : Type :=
| IDSet (id : list Byte.byte)
| InitPanic (err : Error).

Section init.

(** [ids.ToID], of another library. *)
Variable ToID : list Byte.byte -> Error + list Byte.byte.

(** The body of [init], for a package whose [Name] is [name]. *)
Definition init_for (name : string) : InitExit :=
  let b := make IDLen in
  let b := copy b (String.list_byte_of_string name) in
  match ToID b with
  | inl err => InitPanic err
  | inr vmID => IDSet vmID
  end.

Definition init : InitExit := init_for Name.

End init.

(** A [ToID] that takes slices of [IDLen] bytes and refuses the others. *)
Definition sample_ToID (b : list Byte.byte) : Error + list Byte.byte :=
  if Nat.eqb (length b) IDLen then inr b
  else inl (ErrNew "invalid hash length").

End consts.

(** A name that fits an id and has no zero byte. *)
Definition plain_name (name : string) : bool :=
  Nat.leb (length (String.list_byte_of_string name)) consts.IDLen
  && forallb (fun x => negb (Byte.eqb x Byte.x00))
       (String.list_byte_of_string name).

(** Two transactions under one id. *)
Definition block_same_id : StatelessBlock :=
  {| Txs := [ {| tx_ID := 301%N; Actions := [Transfer 7 50] |};
              {| tx_ID := 301%N; Actions := [OtherAction 9] |} ];
     Results := [ {| Success := true; Units := [5%N]; Fee := 10 |};
                  {| Success := false; Units := [1%N]; Fee := 2 |} ];
     GetTimestamp := 3000 |}.

(** The block with the results that no transaction pairs with cut off. *)
Definition trim_results (blk : StatelessBlock) : StatelessBlock :=
  {| Txs := Txs blk; Results := take (length (Txs blk)) (Results blk);
     GetTimestamp := GetTimestamp blk |}.

(** What [Initialize] added to the effects it started with. *)
Definition added_effects (before after : InitState) : list Effect :=
  drop (length (effects before)) (effects after).

(** A store that already holds one record, and a controller over it. *)
Definition store_one : Store :=
  <[7%N := {| rec_timestamp := 1; rec_success := true; rec_units := [];
              rec_fee := 3 |}]> ∅.

Definition controller_over (s : Store) (cf : Config) : Controller :=
  set_db (Some s) (controller_with cf).


(** ** Blocks as the program holds them *)

(** [blk.Txs] is a [[]*chain.Transaction] and [blk.Results()] a
    [[]*chain.Result]: an entry of either slice may be nil.
    [StatelessBlock] is the block all of whose entries are non-nil, each
    entry standing for what it points to; [PtrBlock] is the block with its
    pointers. *)
Record PtrBlock := {
  ptr_Txs : list (option Transaction);
  ptr_Results : list (option Result);
  ptr_Timestamp : Z
}.

(** The block of pointers to the entries of a block of values. *)
Definition of_values (blk : StatelessBlock) : PtrBlock :=
  {| ptr_Txs := Some <$> Txs blk;
     ptr_Results := Some <$> Results blk;
     ptr_Timestamp := GetTimestamp blk |}.

Section AcceptedPtr.

Variable eng : Engine.

(** The loop of [Accepted] over the slices of pointers.  The arguments of
    [storage.StoreTransaction] are evaluated in order, [tx.ID()] before
    [result.Success]; [result.Success] is read again after staging, and
    [tx.Actions] only for a successful result. *)
Fixpoint Accepted_loop_ptr (cfg : option Config) (t : Z)
    (results : list (option Result)) (i : nat)
    (txs : list (option Transaction)) (m : option metrics) (batch : Batch)
    : LoopExit * option metrics * Batch :=
  match txs with
  | [] => (LoopDone, m, batch)
  | tx :: rest =>
      match results !! i with
      | None => (LoopPanic (IndexOutOfRange i (length results)), m, batch)
      | Some result =>
          match cfg with
          | None => (LoopPanic NilDereference, m, batch)
          | Some cf =>
              let staged : PanicReason + (Error + Batch) :=
                if StoreTransactions cf
                then match tx, result with
                     | None, _ => inl NilDereference
                     | Some _, None => inl NilDereference
                     | Some txv, Some r =>
                         inr (Storage.StoreTransaction eng batch (tx_ID txv) t
                                (Success r) (Units r) (Fee r))
                     end
                else inr (inr batch) in
              match staged with
              | inl why => (LoopPanic why, m, batch)
              | inr (inl e) => (LoopReturn e, m, batch)
              | inr (inr batch') =>
                  match result with
                  | None => (LoopPanic NilDereference, m, batch')
                  | Some r =>
                      if Success r
                      then match tx with
                           | None => (LoopPanic NilDereference, m, batch')
                           | Some txv =>
                               match count_actions (Actions txv) m with
                               | (Some why, m') => (LoopPanic why, m', batch')
                               | (None, m') =>
                                   Accepted_loop_ptr cfg t results (S i) rest
                                     m' batch'
                               end
                           end
                      else Accepted_loop_ptr cfg t results (S i) rest m batch'
                  end
              end
          end
      end
  end.

(** [Accepted] on the block with its pointers. *)
Definition Accepted_ptr (c : Controller) (blk : PtrBlock) : Exit * Controller :=
  match db c with
  | None => (Panicked NilDereference, c)
  | Some s =>
      let batch : Batch := [] in
      match Accepted_loop_ptr (config c) (ptr_Timestamp blk) (ptr_Results blk)
              0 (ptr_Txs blk) (c_metrics c) batch with
      | (LoopReturn e, m, _) => (Return (Some e), set_metrics m c)
      | (LoopPanic why, m, _) => (Panicked why, set_metrics m c)
      | (LoopDone, m, staged) =>
          let '(err, s') := Write eng s staged in
          (Return err, set_db (Some s') (set_metrics m c))
      end
  end.

End AcceptedPtr.

(** The example block with the result of its first transaction nil. *)
Definition block3_nil_result : PtrBlock :=
  {| ptr_Txs := Some <$> Txs block3;
     ptr_Results := None :: (Some <$> drop 1 (Results block3));
     ptr_Timestamp := 1000 |}.

(** * Properties *)

(** ** Batches and stores *)

Lemma apply_batch_cons k v (b : Batch) (s : Store) :
  apply_batch ((k, v) :: b) s = apply_batch b (<[k := v]> s).
Proof. reflexivity. Qed.

Lemma apply_batch_other (b : Batch) : forall (s : Store) k,
  k ∉ b.*1 -> apply_batch b s !! k = s !! k.
Proof.
  induction b as [|[k0 v0] b IH]; intros s k Hk; [done|].
  rewrite apply_batch_cons. cbn in Hk.
  apply not_elem_of_cons in Hk as [Hne Hk].
  rewrite IH by done. by rewrite lookup_insert_ne.
Qed.

Lemma apply_batch_lookup (b : Batch) : forall (s : Store) i k v,
  NoDup b.*1 -> b !! i = Some (k, v) -> apply_batch b s !! k = Some v.
Proof.
  induction b as [|[k0 v0] b IH]; intros s i k v Hnd Hi; [done|].
  rewrite apply_batch_cons. cbn in Hnd. apply NoDup_cons in Hnd as [Hk0 Hnd].
  destruct i as [|i]; cbn in Hi.
  - injection Hi as -> ->. rewrite apply_batch_other by done.
    apply lookup_insert_eq.
  - by apply (IH _ i).
Qed.

Lemma apply_batch_size (b : Batch) : forall (s : Store),
  NoDup b.*1 -> (forall k, k ∈ b.*1 -> s !! k = None) ->
  size (apply_batch b s) = size s + length b.
Proof.
  induction b as [|[k0 v0] b IH]; intros s Hnd Hfresh; cbn [length]; [cbn; lia|].
  rewrite apply_batch_cons. cbn in Hnd. apply NoDup_cons in Hnd as [Hk0 Hnd].
  rewrite IH; [|done|].
  - rewrite map_size_insert_None; [lia|]. apply Hfresh. cbn. left.
  - intros k Hk. rewrite lookup_insert_ne; [|intros ->; done].
    apply Hfresh. cbn. by right.
Qed.

Lemma length_archive_records t txs rs :
  length rs = length txs -> length (archive_records t txs rs) = length txs.
Proof. intros H. unfold archive_records. rewrite length_zip_with. lia. Qed.

Lemma archive_records_lookup t txs rs i tx r :
  txs !! i = Some tx -> rs !! i = Some r ->
  archive_records t txs rs !! i = Some (archive_record t tx r).
Proof.
  intros Htx Hr. unfold archive_records.
  rewrite lookup_zip_with, Htx. cbn. by rewrite Hr.
Qed.

Lemma archive_records_keys t txs rs :
  length rs = length txs -> (archive_records t txs rs).*1 = tx_ID <$> txs.
Proof.
  revert rs. induction txs as [|tx txs IH]; intros [|r rs] H; cbn in *; try done.
  f_equal. apply IH. lia.
Qed.

(** ** The loop of [Accepted] *)

Lemma metrics_eta (m : metrics) : {| transfer := transfer m |} = m.
Proof. by destruct m. Qed.

Lemma count_actions_Some acts : forall m,
  count_actions acts (Some m)
  = (None, Some {| transfer := transfer m + transfers_in acts |}).
Proof.
  unfold transfers_in.
  induction acts as [|[to v|ty] acts IH]; intros m; cbn.
  - by rewrite N.add_0_r, metrics_eta.
  - rewrite IH. cbn. do 3 f_equal. lia.
  - apply IH.
Qed.

Lemma count_actions_None acts m' :
  count_actions acts None = (None, m') ->
  m' = None /\ transfers_in acts = 0%N.
Proof.
  unfold transfers_in.
  induction acts as [|[to v|ty] acts IH]; cbn; intros H.
  - by injection H as <-.
  - discriminate.
  - by apply IH.
Qed.

Section Loop.

Variable eng : Engine.
Variable t : Z.
Variable rs : list Result.

(** Running the loop over [pre ++ post] is running it over [pre] and, when
    that falls through, over [post] from where it stopped. *)
Lemma Accepted_loop_app cfg pre post : forall i m b,
  Accepted_loop eng cfg t rs i (pre ++ post) m b
  = match Accepted_loop eng cfg t rs i pre m b with
    | (LoopDone, m', b') => Accepted_loop eng cfg t rs (i + length pre) post m' b'
    | other => other
    end.
Proof.
  induction pre as [|tx pre IH]; intros i m b; cbn.
  - by rewrite Nat.add_0_r.
  - destruct (rs !! i) as [r|]; [|done].
    destruct cfg as [cf|]; [|done].
    destruct (if StoreTransactions cf then _ else _) as [e|b']; [done|].
    destruct (if Success r then _ else _) as [[why|] m']; [done|].
    rewrite IH. by replace (S i + length pre) with (i + S (length pre)) by lia.
Qed.

(** A pass that falls through has staged one record per transaction when
    archival is on, and none when it is off. *)
Lemma Accepted_loop_done_batch cf txs : forall i m b m' b',
  Accepted_loop eng (Some cf) t rs i txs m b = (LoopDone, m', b') ->
  length txs <= length (drop i rs) /\
  b' = b ++ (if StoreTransactions cf
             then archive_records t txs (drop i rs) else []).
Proof.
  induction txs as [|tx txs IH]; intros i m b m' b' H; cbn in H.
  - injection H as <- <-. split; [cbn; lia|].
    destruct (StoreTransactions cf); cbn; by rewrite app_nil_r.
  - destruct (rs !! i) as [r|] eqn:Hr; [|done].
    rewrite (drop_S _ _ _ Hr).
    destruct (StoreTransactions cf) eqn:Hst.
    + unfold Storage.StoreTransaction in H.
      destruct (put_fault eng b _ _) as [e|]; [done|].
      destruct (if Success r then _ else _) as [[why|] m1]; [done|].
      apply IH in H as [Hlen ->]. split; [cbn; lia|].
      cbn. by rewrite <- app_assoc.
    + destruct (if Success r then _ else _) as [[why|] m1]; [done|].
      apply IH in H as [Hlen ->]. split; [cbn; lia|done].
Qed.

(** With counters in place the pass never stops on them, and every way out
    leaves them advanced by the transfers of the transactions it went
    through. *)
Lemma Accepted_loop_done_metrics cf txs : forall i m b m' b',
  Accepted_loop eng (Some cf) t rs i txs (Some m) b = (LoopDone, m', b') ->
  m' = Some {| transfer := transfer m + transfer_actions txs (drop i rs) |}.
Proof.
  induction txs as [|tx txs IH]; intros i m b m' b' H; cbn in H.
  - injection H as <- <-. cbn. by rewrite N.add_0_r, metrics_eta.
  - destruct (rs !! i) as [r|] eqn:Hr; [|done].
    rewrite (drop_S _ _ _ Hr).
    destruct (if StoreTransactions cf then _ else _) as [e|b1]; [done|].
    cbn [transfer_actions].
    destruct (Success r).
    + rewrite count_actions_Some in H. apply IH in H as ->. cbn.
      do 2 f_equal. lia.
    + by apply IH in H as ->.
Qed.

End Loop.

(** ** Archival *)

Section Archival.

Variable eng : Engine.

(** C1. When [Accepted] returns [nil] for a block of N transactions and N
    results: with [StoreTransactions] on, the pass staged exactly the N
    records of the block, in order, the i-th keyed by the id of the i-th
    transaction and holding the block timestamp and the success flag, units
    and fee of the i-th result, and the store is the old one with that batch
    committed (so, for distinct ids, every id reads back its record, and the
    store grows by N when none of them was present); with the flag off,
    nothing was staged and the store is the old one. *)
Theorem Accepted_archives_block c blk s cf c' :
  db c = Some s ->
  config c = Some cf ->
  length (Results blk) = length (Txs blk) ->
  Accepted eng c blk = (Return None, c') ->
  let t := GetTimestamp blk in
  let staged := archive_records t (Txs blk) (Results blk) in
  if StoreTransactions cf then
    Accepted_loop eng (config c) t (Results blk) 0 (Txs blk) (c_metrics c) []
      = (LoopDone, c_metrics c', staged) /\
    length staged = length (Txs blk) /\
    (forall i tx r, Txs blk !! i = Some tx -> Results blk !! i = Some r ->
       staged !! i = Some (tx_ID tx,
                           {| rec_timestamp := t; rec_success := Success r;
                              rec_units := Units r; rec_fee := Fee r |})) /\
    db c' = Some (apply_batch staged s) /\
    (NoDup (tx_ID <$> Txs blk) ->
       (forall i tx r, Txs blk !! i = Some tx -> Results blk !! i = Some r ->
          apply_batch staged s !! tx_ID tx
          = Some {| rec_timestamp := t; rec_success := Success r;
                    rec_units := Units r; rec_fee := Fee r |}) /\
       ((forall tx, tx ∈ Txs blk -> s !! tx_ID tx = None) ->
          size (apply_batch staged s) = size s + length (Txs blk)))
  else
    Accepted_loop eng (config c) t (Results blk) 0 (Txs blk) (c_metrics c) []
      = (LoopDone, c_metrics c', []) /\
    db c' = Some s.
Proof.
  intros Hdb Hcf Hlen Hacc t staged. unfold Accepted in Hacc.
  rewrite Hdb, Hcf in Hacc. rewrite Hcf. fold t in Hacc.
  destruct (Accepted_loop eng (Some cf) t (Results blk) 0 (Txs blk)
              (c_metrics c) []) as [[ex m'] b'] eqn:Hloop.
  destruct ex as [|e|why]; [|done|done].
  destruct (Accepted_loop_done_batch _ _ _ _ _ _ _ _ _ _ Hloop) as [_ Hb].
  cbn in Hb. fold staged in Hb.
  unfold Write in Hacc.
  destruct (commit_fault eng s b') as [[e s1]|]; [done|].
  injection Hacc as <-. cbn [c_metrics db set_db set_metrics].
  destruct (StoreTransactions cf); subst b'; [|done].
  split; [done|].
  split; [by apply length_archive_records|].
  split; [intros i tx r Htx Hr; by apply archive_records_lookup|].
  split; [done|].
  intros Hnd.
  assert (Hkeys : staged.*1 = tx_ID <$> Txs blk)
    by by apply archive_records_keys.
  split.
  - intros i tx r Htx Hr.
    apply (apply_batch_lookup staged s i); [by rewrite Hkeys|].
    by apply archive_records_lookup.
  - intros Hfresh.
    rewrite apply_batch_size; [|by rewrite Hkeys|].
    { unfold staged. by rewrite length_archive_records. }
    intros k Hk. rewrite Hkeys in Hk.
    apply list_elem_of_fmap in Hk as [tx [-> Htx]]. by apply Hfresh.
Qed.

End Archival.

(** The block of the specification's example, archived. *)
Lemma Accepted_archives_block_witness :
  (db (snd (Accepted engine_ok (controller_with config_archive) block3))
   = Some (<[103%N := {| rec_timestamp := 1000; rec_success := true;
                         rec_units := [2%N]; rec_fee := 1 |}]>
           (<[102%N := {| rec_timestamp := 1000; rec_success := false;
                          rec_units := [0%N]; rec_fee := 0 |}]>
            (<[101%N := {| rec_timestamp := 1000; rec_success := true;
                           rec_units := [5%N]; rec_fee := 10 |}]> ∅))))
  /\ db (snd (Accepted engine_ok (controller_with config_plain) block3)) = Some ∅.
Proof.
  split.
  - apply (Accepted_archives_block engine_ok (controller_with config_archive)
             block3 ∅ config_archive); reflexivity.
  - apply (Accepted_archives_block engine_ok (controller_with config_plain)
             block3 ∅ config_plain); reflexivity.
Defined.

(** ** Errors leave the store alone *)

(** Whatever stops the pass before [batch.Write()] leaves the store as it
    was: the batch is the only thing staged writes reach. *)
Lemma Accepted_uncommitted eng c blk ex m b x c' :
  Accepted_loop eng (config c) (GetTimestamp blk) (Results blk) 0 (Txs blk)
    (c_metrics c) [] = (ex, m, b) ->
  ex <> LoopDone ->
  Accepted eng c blk = (x, c') ->
  db c' = db c.
Proof.
  intros Hloop Hex Hacc. unfold Accepted in Hacc.
  destruct (db c) as [s|] eqn:Hdb; [|by injection Hacc as <- <-].
  rewrite Hloop in Hacc.
  destruct ex; [done| |]; by injection Hacc as <- <-.
Qed.

(** C2. An error return of [Accepted] that comes from staging leaves the
    store as it was, whatever the engine; an error return of any kind does
    so as soon as the engine's failed commits write nothing. *)
Theorem Accepted_error_keeps_store eng c blk e c' :
  Accepted eng c blk = (Return (Some e), c') ->
  (fst (fst (Accepted_loop eng (config c) (GetTimestamp blk) (Results blk) 0
               (Txs blk) (c_metrics c) [])) = LoopReturn e ->
   db c' = db c) /\
  (atomic_commit eng -> db c' = db c).
Proof.
  intros Hacc.
  destruct (Accepted_loop eng (config c) (GetTimestamp blk) (Results blk) 0
              (Txs blk) (c_metrics c) []) as [[ex m] b] eqn:Hloop.
  split.
  - cbn. intros ->. by eapply Accepted_uncommitted.
  - intros Hatomic.
    destruct ex as [|e0|why];
      [|by eapply (Accepted_uncommitted _ _ _ (LoopReturn e0))
       |by eapply (Accepted_uncommitted _ _ _ (LoopPanic why))].
    unfold Accepted in Hacc.
    destruct (db c) as [s|] eqn:Hdb; [|done].
    rewrite Hloop in Hacc. unfold Write in Hacc.
    destruct (commit_fault eng s b) as [[e1 s1]|] eqn:Hc; [|done].
    injection Hacc as _ <-. cbn. f_equal. by eapply Hatomic.
Qed.

(** A staging failure at the second transaction, and a failed commit. *)
Lemma Accepted_error_keeps_store_witness :
  db (snd (Accepted (engine_full 1) (controller_with config_archive) block3))
    = Some ∅
  /\ db (snd (Accepted engine_readonly (controller_with config_archive) block3))
    = Some ∅.
Proof.
  split.
  - refine (proj1 (Accepted_error_keeps_store (engine_full 1)
                     (controller_with config_archive) block3
                     (ErrNew "batch is full") _ _) _); reflexivity.
  - refine (proj2 (Accepted_error_keeps_store engine_readonly
                     (controller_with config_archive) block3
                     (ErrNew "database is read-only") _ _) _); [reflexivity|].
    intros s b e s' H. cbn in H. congruence.
Defined.

(** ** The transfer counter *)

(** Actions of other kinds neither count nor stop the pass. *)
Lemma count_actions_unrecognised acts m :
  (forall a, a ∈ acts -> is_transfer a = false) ->
  count_actions acts m = (None, m).
Proof.
  induction acts as [|[to v|ty] acts IH]; intros H; cbn; [done| |].
  - specialize (H (Transfer to v)). cbn in H. discriminate H. left.
  - apply IH. intros a Ha. apply H. by right.
Qed.

(** C6, as the code has it. When [Accepted] returns [nil], the transfer
    counter has grown by the number of transfer actions in the action lists
    of the successful transactions: one increment per transfer action, not
    per transaction.  An action list without transfers leaves the counter
    and the pass as they are. *)
Theorem Accepted_counts_transfer_actions eng c blk m c' :
  c_metrics c = Some m ->
  Accepted eng c blk = (Return None, c') ->
  c_metrics c'
    = Some {| transfer := transfer m + transfer_actions (Txs blk) (Results blk) |}
  /\ (forall acts mo, (forall a, a ∈ acts -> is_transfer a = false) ->
        count_actions acts mo = (None, mo)).
Proof.
  intros Hm Hacc. split; [|apply count_actions_unrecognised].
  unfold Accepted in Hacc.
  destruct (db c) as [s|]; [|done]. rewrite Hm in Hacc.
  destruct (Accepted_loop eng (config c) (GetTimestamp blk) (Results blk) 0
              (Txs blk) (Some m) []) as [[ex m'] b'] eqn:Hloop.
  destruct ex as [|e|why]; [|done|done].
  destruct (Write eng s b') as [err s1]. injection Hacc as -> <-. cbn.
  destruct (config c) as [cf|].
  - by apply Accepted_loop_done_metrics in Hloop.
  - destruct (Txs blk) as [|tx txs]; cbn in Hloop.
    + injection Hloop as <- _. cbn. by rewrite N.add_0_r, metrics_eta.
    + by destruct (Results blk !! 0).
Qed.

Lemma Accepted_counts_transfer_actions_witness :
  c_metrics (snd (Accepted engine_ok (controller_with config_archive) block3))
    = Some {| transfer := 2 |}.
Proof.
  refine (proj1 (Accepted_counts_transfer_actions engine_ok
                   (controller_with config_archive) block3
                   {| transfer := 0 |} _ _ _)); reflexivity.
Defined.

(** C6, as stated, fails: one successful transaction with two transfers is
    one qualifying transaction, and the counter moves by two. *)
Lemma transfer_counter_not_per_transaction :
  length (Results block_two_transfers) = length (Txs block_two_transfers)
  /\ fst (Accepted engine_ok (controller_with config_archive) block_two_transfers)
     = Return None
  /\ c_metrics (controller_with config_archive) = Some {| transfer := 0 |}
  /\ qualifying_transactions (Txs block_two_transfers)
       (Results block_two_transfers) = 1%N
  /\ c_metrics (snd (Accepted engine_ok (controller_with config_archive)
                       block_two_transfers))
     = Some {| transfer := 2 |}
  /\ c_metrics (snd (Accepted engine_ok (controller_with config_archive)
                       block_two_transfers))
     <> Some {| transfer := 0 + qualifying_transactions
                                 (Txs block_two_transfers)
                                 (Results block_two_transfers) |}.
Proof. repeat split; try reflexivity. cbn. discriminate. Qed.

(** ** A staging failure in the middle of a block *)

Section Prefix.

Variable eng : Engine.
Variable t : Z.
Variable rs : list Result.

(** A stretch of transactions whose writes the engine accepts is passed
    through: all of them staged (when archival is on), all their transfers
    counted. *)
Lemma Accepted_loop_prefix cf pre : forall i m b,
  length pre <= length (drop i rs) ->
  (StoreTransactions cf = true ->
   forall k tx r, pre !! k = Some tx -> rs !! (i + k) = Some r ->
     put_fault eng (b ++ archive_records t (take k pre) (drop i rs))
       (tx_ID tx) (archive_record t tx r).2 = None) ->
  Accepted_loop eng (Some cf) t rs i pre (Some m) b
  = (LoopDone,
     Some {| transfer := transfer m + transfer_actions pre (drop i rs) |},
     b ++ (if StoreTransactions cf
           then archive_records t pre (drop i rs) else [])).
Proof.
  induction pre as [|tx pre IH]; intros i m b Hlen Hput.
  - cbn. rewrite N.add_0_r, metrics_eta.
    destruct (StoreTransactions cf); by rewrite app_nil_r.
  - destruct (rs !! i) as [r|] eqn:Hr.
    2:{ apply lookup_ge_None in Hr. rewrite length_drop in Hlen.
        cbn in Hlen. lia. }
    rewrite (drop_S _ _ _ Hr) in *.
    cbn [Accepted_loop]. rewrite Hr.
    assert (Hcount : (if Success r then count_actions (Actions tx) (Some m)
                      else (None, Some m))
                     = (None, Some {| transfer := transfer m +
                          (if Success r then transfers_in (Actions tx) else 0) |})).
    { destruct (Success r); [apply count_actions_Some|].
      by rewrite N.add_0_r, metrics_eta. }
    destruct (StoreTransactions cf) eqn:Hst.
    + pose proof (Hput eq_refl 0 tx r eq_refl) as H0.
      rewrite Nat.add_0_r in H0. specialize (H0 Hr).
      cbn in H0. rewrite app_nil_r in H0.
      unfold Storage.StoreTransaction. rewrite H0, Hcount, IH.
      * cbn. rewrite <- app_assoc, N.add_assoc. reflexivity.
      * cbn in Hlen. lia.
      * intros _ k tx' r' Htx' Hr'.
        specialize (Hput eq_refl (S k) tx' r' Htx').
        replace (i + S k) with (S i + k) in Hput by lia.
        specialize (Hput Hr'). cbn in Hput. by rewrite <- app_assoc.
    + rewrite Hcount, IH.
      * cbn. rewrite N.add_assoc. reflexivity.
      * cbn in Hlen. lia.
      * done.
Qed.

End Prefix.

(** C10. When staging the record of the transaction at index [i] is the
    first write the engine refuses, [Accepted] returns that error, the
    counter keeps the increments of the successful transactions before [i],
    and the store is as it was. *)
Theorem Accepted_staging_failure_keeps_metrics eng c blk s cf m i tx r e :
  db c = Some s ->
  config c = Some cf ->
  c_metrics c = Some m ->
  StoreTransactions cf = true ->
  Txs blk !! i = Some tx ->
  Results blk !! i = Some r ->
  (forall j txj rj, j < i ->
     Txs blk !! j = Some txj -> Results blk !! j = Some rj ->
     put_fault eng
       (archive_records (GetTimestamp blk) (take j (Txs blk)) (Results blk))
       (tx_ID txj) (archive_record (GetTimestamp blk) txj rj).2 = None) ->
  put_fault eng
    (archive_records (GetTimestamp blk) (take i (Txs blk)) (Results blk))
    (tx_ID tx) (archive_record (GetTimestamp blk) tx r).2 = Some e ->
  let c' := snd (Accepted eng c blk) in
  fst (Accepted eng c blk) = Return (Some e)
  /\ c_metrics c'
     = Some {| transfer := transfer m
                 + transfer_actions (take i (Txs blk)) (Results blk) |}
  /\ db c' = Some s.
Proof.
  intros Hdb Hcf Hm Hst Htx Hr Hbefore Hat c'. subst c'.
  pose proof (lookup_lt_Some _ _ _ Htx) as Hi.
  assert (Hloop :
    Accepted_loop eng (Some cf) (GetTimestamp blk) (Results blk) 0 (Txs blk)
      (Some m) []
    = (LoopReturn e,
       Some {| transfer := transfer m
                 + transfer_actions (take i (Txs blk)) (Results blk) |},
       archive_records (GetTimestamp blk) (take i (Txs blk)) (Results blk))).
  { rewrite <- (take_drop_middle _ _ _ Htx) at 1.
    rewrite Accepted_loop_app.
    rewrite (Accepted_loop_prefix _ _ _ cf); rewrite ?drop_0, ?Hst; [| |intros _].
    - rewrite length_take_le by lia. cbn [Nat.add Accepted_loop].
      rewrite Hr, Hst. unfold Storage.StoreTransaction.
      cbn [app]. cbn in Hat. by rewrite Hat.
    - rewrite length_take_le by lia.
      apply lookup_lt_Some in Hr. lia.
    - intros k tx' r' Htx' Hr'. cbn [Nat.add app] in *.
      pose proof (lookup_lt_Some _ _ _ Htx') as Hk.
      rewrite length_take_le in Hk by lia.
      rewrite lookup_take_lt in Htx' by done.
      rewrite take_take, Nat.min_l by lia.
      by apply Hbefore. }
  unfold Accepted. rewrite Hdb, Hcf, Hm, Hloop. cbn. by rewrite Hdb.
Qed.

(** The second write of the example block is refused: the transfer of the
    first transaction stays counted, nothing is stored. *)
Lemma Accepted_staging_failure_keeps_metrics_witness :
  fst (Accepted (engine_full 1) (controller_with config_archive) block3)
    = Return (Some (ErrNew "batch is full"))
  /\ c_metrics (snd (Accepted (engine_full 1) (controller_with config_archive)
                       block3))
     = Some {| transfer := 1 |}
  /\ db (snd (Accepted (engine_full 1) (controller_with config_archive) block3))
     = Some ∅.
Proof.
  refine (Accepted_staging_failure_keeps_metrics (engine_full 1)
            (controller_with config_archive) block3 ∅ config_archive
            {| transfer := 0 |} 1
            {| tx_ID := 102%N; Actions := [Transfer 8 60] |}
            {| Success := false; Units := [0%N]; Fee := 0 |}
            (ErrNew "batch is full") _ _ _ _ _ _ _ _); try reflexivity.
  intros j txj rj Hj Htx Hr.
  destruct j as [|j]; [reflexivity|lia].
Defined.

(** ** Indexing the results *)

(** With a result for every transaction still to visit, the pass does not
    stop on an index. *)
Lemma Accepted_loop_in_bounds eng cfg t rs txs : forall i m b j n,
  length txs <= length (drop i rs) ->
  fst (fst (Accepted_loop eng cfg t rs i txs m b))
  <> LoopPanic (IndexOutOfRange j n).
Proof.
  induction txs as [|tx txs IH]; intros i m b j n Hlen; cbn; [done|].
  destruct (rs !! i) as [r|] eqn:Hr.
  2:{ apply lookup_ge_None in Hr. rewrite length_drop in Hlen.
      cbn in Hlen. lia. }
  rewrite (drop_S _ _ _ Hr) in Hlen. cbn in Hlen.
  destruct cfg as [cf|]; [|done].
  destruct (if StoreTransactions cf then _ else _) as [e|b1]; [done|].
  destruct (Success r).
  - destruct (count_actions (Actions tx) m) as [[why|] m1] eqn:Hc.
    + cbn. intros [= ->].
      clear -Hc. revert m Hc.
      induction (Actions tx) as [|[to v|ty] acts IHa]; intros m Hc; cbn in Hc;
        [done| |by eauto].
      destruct m as [mv|]; [by eauto|done].
    + apply IH. lia.
  - apply IH. lia.
Qed.

(** C7. With as many results as transactions, every [results[i]] of the pass
    is in bounds and [Accepted] does not panic on an index.  An access past
    the end of the results stops the pass with a panic, never with an error:
    on a block with fewer results than transactions [Accepted] does not
    return [nil], the only error it can return is one that staging raised
    before the missing result was reached, and when the engine accepts the
    writes up to there it panics at the first missing index, the store
    untouched. *)
Theorem results_index_in_bounds_or_fatal eng c blk :
  (length (Results blk) = length (Txs blk) ->
     (forall i tx, Txs blk !! i = Some tx -> is_Some (Results blk !! i)) /\
     (forall i n, fst (Accepted eng c blk) <> Panicked (IndexOutOfRange i n)))
  /\ (forall i tx rest m b, length (Results blk) <= i ->
        Accepted_loop eng (config c) (GetTimestamp blk) (Results blk) i
          (tx :: rest) m b
        = (LoopPanic (IndexOutOfRange i (length (Results blk))), m, b))
  /\ (length (Results blk) < length (Txs blk) ->
        (forall err, fst (Accepted eng c blk) = Return err ->
           exists e, err = Some e /\
             fst (fst (Accepted_loop eng (config c) (GetTimestamp blk)
                         (Results blk) 0 (Txs blk) (c_metrics c) []))
             = LoopReturn e) /\
        (forall s cf m,
           db c = Some s -> config c = Some cf -> c_metrics c = Some m ->
           (StoreTransactions cf = true ->
            forall j txj rj,
              Txs blk !! j = Some txj -> Results blk !! j = Some rj ->
              put_fault eng
                (archive_records (GetTimestamp blk) (take j (Txs blk))
                   (Results blk))
                (tx_ID txj) (archive_record (GetTimestamp blk) txj rj).2
              = None) ->
           fst (Accepted eng c blk)
             = Panicked (IndexOutOfRange (length (Results blk))
                           (length (Results blk)))
           /\ db (snd (Accepted eng c blk)) = Some s)).
Proof.
  split; [|split].
  - intros Hlen. split.
    + intros i tx Htx. apply lookup_lt_is_Some.
      apply lookup_lt_Some in Htx. lia.
    + intros i n. unfold Accepted.
      destruct (db c) as [s|]; [|done].
      pose proof (Accepted_loop_in_bounds eng (config c) (GetTimestamp blk)
                    (Results blk) (Txs blk) 0 (c_metrics c) [] i n) as Hb.
      rewrite drop_0 in Hb. specialize (Hb ltac:(lia)).
      destruct (Accepted_loop _ _ _ _ _ _ _ _) as [[ex m] b]. cbn in Hb.
      destruct ex as [|e|why]; cbn.
      * by destruct (Write eng s b).
      * done.
      * congruence.
  - intros i tx rest m b Hi. cbn.
    by rewrite (proj2 (lookup_ge_None _ _) Hi).
  - intros Hlt. split.
    + intros err Herr. unfold Accepted in Herr.
      destruct (db c) as [s|]; [|done].
      destruct (Accepted_loop _ _ _ _ _ _ _ _) as [[ex m] b] eqn:Hloop.
      destruct ex as [|e|why]; cbn in Herr.
      * exfalso. destruct (config c) as [cf|].
        -- apply Accepted_loop_done_batch in Hloop as [Hlen _].
           rewrite drop_0 in Hlen. lia.
        -- destruct (Txs blk) as [|tx txs]; cbn in Hlt, Hloop; [lia|].
           by destruct (Results blk !! 0).
      * injection Herr as <-. by exists e.
      * done.
    + intros s cf m Hdb Hcf Hm Hput.
      set (n := length (Results blk)).
      destruct (Txs blk !! n) as [tx|] eqn:Htx.
      2:{ apply lookup_ge_None in Htx. lia. }
      assert (Hloop :
        fst (fst (Accepted_loop eng (Some cf) (GetTimestamp blk) (Results blk)
                    0 (Txs blk) (Some m) []))
        = LoopPanic (IndexOutOfRange n n)).
      { rewrite <- (take_drop_middle _ _ _ Htx).
        rewrite Accepted_loop_app.
        rewrite (Accepted_loop_prefix _ _ _ cf); rewrite ?drop_0.
        - rewrite length_take_le by lia. cbn [Nat.add Accepted_loop].
          by rewrite (proj2 (lookup_ge_None (Results blk) n) ltac:(lia)).
        - rewrite length_take_le; lia.
        - intros Hst k tx' r' Htx' Hr'. cbn [Nat.add app] in *.
          pose proof (lookup_lt_Some _ _ _ Htx') as Hk.
          rewrite length_take_le in Hk by lia.
          rewrite lookup_take_lt in Htx' by done.
          rewrite take_take, Nat.min_l by lia.
          by apply Hput. }
      unfold Accepted. rewrite Hdb, Hcf, Hm.
      destruct (Accepted_loop _ _ _ _ _ _ _ _) as [[ex m1] b1].
      cbn in Hloop. subst ex. cbn. by rewrite Hdb.
Qed.

(** The example block, and the same block with its last result missing. *)
Lemma results_index_in_bounds_or_fatal_witness :
  is_Some (Results block3 !! 2)
  /\ fst (Accepted engine_ok (controller_with config_archive) block_short_results)
     = Panicked (IndexOutOfRange 2 2)
  /\ db (snd (Accepted engine_ok (controller_with config_archive)
                block_short_results)) = Some ∅.
Proof.
  split.
  - exact (proj1 (proj1 (results_index_in_bounds_or_fatal engine_ok
                           (controller_with config_archive) block3)
                    eq_refl) 2
                 {| tx_ID := 103%N; Actions := [OtherAction 9; Transfer 7 1] |}
                 eq_refl).
  - refine (proj2 (proj2 (proj2 (results_index_in_bounds_or_fatal engine_ok
                                   (controller_with config_archive)
                                   block_short_results))
                     _) ∅ config_archive {| transfer := 0 |} _ _ _ _);
      try reflexivity.
    cbn. lia.
Defined.

(** ** Rules *)

(** C8. On a controller whose chain context and genesis are set, [Rules t]
    is, for every [t], the projection of the genesis snapshot with the
    network id and the chain id stored in the chain context: the rule set
    embeds those two identifiers whatever [t] is, and the controller is
    returned as it was given. *)
Theorem Rules_is_projection c ctx g t :
  snowCtx c = Some ctx ->
  genesis c = Some g ->
  Rules c t
  = (inr {| rules_g := Some g; rules_networkID := NetworkID ctx;
            rules_chainID := ChainID ctx |}, c)
  /\ (forall t', fst (Rules c t') = fst (Rules c t))
  /\ snd (Rules c t) = c.
Proof.
  intros Hctx Hg. unfold Rules, genesis_pkg.Rules. rewrite Hctx, Hg.
  repeat split.
Qed.

Lemma Rules_is_projection_witness :
  Rules (controller_with config_archive) 1000
  = (inr {| rules_g := Some {| genesis_raw := [Byte.x7b; Byte.x7d] |};
            rules_networkID := 1337; rules_chainID := 77%N |},
     controller_with config_archive).
Proof.
  exact (proj1 (Rules_is_projection (controller_with config_archive)
                  sample_ctx {| genesis_raw := [Byte.x7b; Byte.x7d] |} 1000
                  eq_refl eq_refl)).
Defined.

(** ** Initialize *)

Section InitializeFacts.

Variable host : Host.
Variables (inner_ : VM) (ctx : SnowContext) (gatherer : Gatherer).
Variables genesisBytes upgradeBytes configBytes : list Byte.byte.
Variable st : InitState.

(** When every collaborator answers, [Initialize] returns no error. *)
Lemma Initialize_succeeds m cf g s h :
  newMetrics host gatherer = inr m ->
  config_New host configBytes = inr cf ->
  genesis_New host genesisBytes upgradeBytes = inr g ->
  hstorage_New host (ChainDataDir ctx) "db" gatherer = inr s ->
  NewJSONRPCHandler host (consts_Name host) NewJSONRPCServer = inr h ->
  (TestMode cf = false ->
   proposer_fault host inner_ (DefaultProposerConfig host) = None) ->
  out_err (fst (Initialize host inner_ ctx gatherer genesisBytes
       upgradeBytes configBytes st)) = None
  /\ ctrl (snd (Initialize host inner_ ctx gatherer genesisBytes
       upgradeBytes configBytes st))
     = {| inner := Some inner_; snowCtx := Some ctx; genesis := Some g;
          config := Some cf; stateManager := Some StateManager_empty;
          c_metrics := Some m; db := Some s |}.
Proof.
  intros Hm Hcf Hg Hs Hh Hp. run_init.
  rewrite Hm, Hcf. cbn. rewrite Hg, Hs. cbn. rewrite Hh. cbn.
  destruct (TestMode cf); cbn; [done|].
  by rewrite Hp.
Qed.


(** C5. When [Initialize] returns no error, the configuration it parsed
    decides the pair alone: the manual builder and the manual gossiper in
    test mode, the time builder and the proposer gossiper with the default
    configuration otherwise. *)
Theorem Initialize_selects_by_TestMode :
  out_err (fst (Initialize host inner_ ctx gatherer genesisBytes
       upgradeBytes configBytes st)) = None ->
  exists cf,
    config_New host configBytes = inr cf /\
    config (ctrl (snd (Initialize host inner_ ctx gatherer genesisBytes
       upgradeBytes configBytes st))) = Some cf /\
    out_builder (fst (Initialize host inner_ ctx gatherer genesisBytes
       upgradeBytes configBytes st))
      = Some (if TestMode cf then NewManual inner_ else NewTime inner_) /\
    out_gossiper (fst (Initialize host inner_ ctx gatherer genesisBytes
       upgradeBytes configBytes st))
      = Some (if TestMode cf then NewManualGossiper inner_
              else Proposer inner_ (DefaultProposerConfig host)).
Proof.
  run_init.
  split_collaborators host; intros Herr; try discriminate Herr;
    eexists; (split; [reflexivity|]); cbn;
    match goal with H : TestMode _ = _ |- _ => rewrite H end; done.
Qed.

End InitializeFacts.



(** Both modes, on the sample host. *)
Lemma Initialize_selects_by_TestMode_witness :
  (exists cf,
     config_New (sample_host config_test) [] = inr cf /\
     config (ctrl (snd (Initialize (sample_host config_test) sample_vm
                          sample_ctx sample_gatherer bytes_empty_object [] []
                          fresh))) = Some cf /\
     out_builder (fst (Initialize (sample_host config_test) sample_vm
                         sample_ctx sample_gatherer bytes_empty_object [] []
                         fresh))
       = Some (if TestMode cf then NewManual sample_vm else NewTime sample_vm) /\
     out_gossiper (fst (Initialize (sample_host config_test) sample_vm
                          sample_ctx sample_gatherer bytes_empty_object [] []
                          fresh))
       = Some (if TestMode cf then NewManualGossiper sample_vm
               else Proposer sample_vm
                      (DefaultProposerConfig (sample_host config_test))))
  /\ (exists cf,
     config_New (sample_host config_plain) [] = inr cf /\
     config (ctrl (snd (Initialize (sample_host config_plain) sample_vm
                          sample_ctx sample_gatherer bytes_empty_object [] []
                          fresh))) = Some cf /\
     out_builder (fst (Initialize (sample_host config_plain) sample_vm
                         sample_ctx sample_gatherer bytes_empty_object [] []
                         fresh))
       = Some (if TestMode cf then NewManual sample_vm else NewTime sample_vm) /\
     out_gossiper (fst (Initialize (sample_host config_plain) sample_vm
                          sample_ctx sample_gatherer bytes_empty_object [] []
                          fresh))
       = Some (if TestMode cf then NewManualGossiper sample_vm
               else Proposer sample_vm
                      (DefaultProposerConfig (sample_host config_plain)))).
Proof.
  split.
  - apply (Initialize_selects_by_TestMode (sample_host config_test) sample_vm
             sample_ctx sample_gatherer bytes_empty_object [] [] fresh).
    reflexivity.
  - apply (Initialize_selects_by_TestMode (sample_host config_plain) sample_vm
             sample_ctx sample_gatherer bytes_empty_object [] [] fresh).
    reflexivity.
Defined.

(** ** A malformed configuration *)

(** C4, as the code has it. Parsing the configuration is the second call of
    [Initialize]: the fields [inner], [snowCtx] and [stateManager] are
    assigned and the metrics registered before it.  On a malformed
    configuration, once the registration went through, [Initialize] returns
    the parser's error as it is, with all outputs nil; the registration is
    its only effect on the outside, and of the controller only those three
    fields, [metrics] and [config] (now nil) were assigned: no log level was
    set, no genesis parsed, no storage opened.  When the registration fails,
    its error is the one returned and the configuration is not looked at. *)
Theorem Initialize_config_failure host inner_ ctx gatherer genesisBytes
    upgradeBytes configBytes st e :
  config_New host configBytes = inl e ->
  effects (snd (Initialize host inner_ ctx gatherer genesisBytes upgradeBytes
                  configBytes st))
    = effects st ++ [RegisterMetrics gatherer]
  /\ match newMetrics host gatherer with
     | inr m =>
         Initialize host inner_ ctx gatherer genesisBytes upgradeBytes
           configBytes st
         = (failed e,
            {| ctrl := set_config None
                         (set_metrics (Some m) (entered inner_ ctx (ctrl st)));
               effects := effects st ++ [RegisterMetrics gatherer] |})
     | inl em =>
         Initialize host inner_ ctx gatherer genesisBytes upgradeBytes
           configBytes st
         = (failed em,
            {| ctrl := set_metrics None (entered inner_ ctx (ctrl st));
               effects := effects st ++ [RegisterMetrics gatherer] |})
     end
  /\ genesis (ctrl (snd (Initialize host inner_ ctx gatherer genesisBytes
                           upgradeBytes configBytes st))) = genesis (ctrl st)
  /\ db (ctrl (snd (Initialize host inner_ ctx gatherer genesisBytes
                      upgradeBytes configBytes st))) = db (ctrl st).
Proof.
  intros Hcf. run_init.
  destruct (newMetrics host gatherer) as [em|m]; cbn; [done|].
  rewrite Hcf. done.
Qed.

Lemma Initialize_config_failure_witness :
  Initialize (sample_host config_archive) sample_vm sample_ctx sample_gatherer
    bytes_empty_object [] bytes_open_brace fresh
  = (failed (ErrNew "unexpected end of JSON input"),
     {| ctrl := set_config None
                  (set_metrics (Some {| transfer := 0 |})
                     (entered sample_vm sample_ctx Controller_zero));
        effects := [RegisterMetrics sample_gatherer] |}).
Proof.
  exact (proj1 (proj2 (Initialize_config_failure (sample_host config_archive)
                         sample_vm sample_ctx sample_gatherer
                         bytes_empty_object [] bytes_open_brace fresh
                         (ErrNew "unexpected end of JSON input") eq_refl))).
Defined.

(** C4, as stated, fails: the configuration [{] is malformed, and by the
    time [Initialize] has failed on it the metrics are registered with the
    gatherer and four fields of the controller are set. *)
Lemma config_failure_after_registration :
  config_New (sample_host config_archive) bytes_open_brace
    = inl (ErrNew "unexpected end of JSON input")
  /\ out_err (fst (Initialize (sample_host config_archive) sample_vm sample_ctx
                     sample_gatherer bytes_empty_object [] bytes_open_brace
                     fresh))
     = Some (ErrNew "unexpected end of JSON input")
  /\ effects (snd (Initialize (sample_host config_archive) sample_vm sample_ctx
                     sample_gatherer bytes_empty_object [] bytes_open_brace
                     fresh))
     = [RegisterMetrics sample_gatherer]
  /\ c_metrics (ctrl (snd (Initialize (sample_host config_archive) sample_vm
                             sample_ctx sample_gatherer bytes_empty_object []
                             bytes_open_brace fresh)))
     = Some {| transfer := 0 |}
  /\ snd (Initialize (sample_host config_archive) sample_vm sample_ctx
            sample_gatherer bytes_empty_object [] bytes_open_brace fresh)
     <> fresh.
Proof. repeat split; try reflexivity. cbn. discriminate. Qed.

(** ** Where errors come from *)

(** An error the pass returns is one the engine gave to a staged write. *)
Lemma Accepted_loop_return_origin eng cfg t rs txs : forall i m b e,
  fst (fst (Accepted_loop eng cfg t rs i txs m b)) = LoopReturn e ->
  exists b0 k v, put_fault eng b0 k v = Some e.
Proof.
  induction txs as [|tx txs IH]; intros i m b e; cbn; [done|].
  destruct (rs !! i) as [r|]; [|done].
  destruct cfg as [cf|]; [|done].
  destruct (StoreTransactions cf).
  - unfold Storage.StoreTransaction.
    destruct (put_fault eng b _ _) as [e0|] eqn:Hput.
    + cbn. intros [= <-]. eauto.
    + destruct (if Success r then _ else _) as [[why|] m1]; [done|]. apply IH.
  - destruct (if Success r then _ else _) as [[why|] m1]; [done|]. apply IH.
Qed.

(** The error of [Initialize], collaborator by collaborator: each failure
    comes back, and only the genesis one with a context added. *)
Lemma Initialize_error_origin host inner_ ctx gatherer genesisBytes
    upgradeBytes configBytes st :
  out_err (fst (Initialize host inner_ ctx gatherer genesisBytes upgradeBytes
                  configBytes st))
  = match newMetrics host gatherer with
    | inl e => Some e
    | inr _ =>
    match config_New host configBytes with
    | inl e => Some e
    | inr cf =>
    match genesis_New host genesisBytes upgradeBytes with
    | inl e => Some (ErrWrap "unable to read genesis" e)
    | inr _ =>
    match hstorage_New host (ChainDataDir ctx) "db" gatherer with
    | inl e => Some e
    | inr _ =>
    match NewJSONRPCHandler host (consts_Name host) NewJSONRPCServer with
    | inl e => Some e
    | inr _ =>
        if TestMode cf then None
        else proposer_fault host inner_ (DefaultProposerConfig host)
    end end end end end.
Proof. run_init. split_collaborators host; reflexivity. Qed.

(** The error of [Accepted]: the engine's own, from staging or from the
    commit, with nothing added. *)
Lemma Accepted_error_origin eng c blk e :
  fst (Accepted eng c blk) = Return (Some e) ->
  (exists b k v, put_fault eng b k v = Some e)
  \/ (exists s b s', commit_fault eng s b = Some (e, s')).
Proof.
  unfold Accepted. destruct (db c) as [s|]; [|done].
  destruct (Accepted_loop _ _ _ _ _ _ _ _) as [[ex m] b] eqn:Hloop.
  destruct ex as [|e0|why]; cbn; [| |done].
  - unfold Write. destruct (commit_fault eng s b) as [[e1 s1]|] eqn:Hc; [|done].
    cbn. intros [= <-]. right. eauto.
  - intros [= <-]. left.
    apply (Accepted_loop_return_origin eng (config c) (GetTimestamp blk)
             (Results blk) (Txs blk) 0 (c_metrics c) []).
    by rewrite Hloop.
Qed.

(** The first write the engine refuses ends the pass with its error. *)
Lemma Accepted_returns_refused_write eng c blk s cf m i tx r e :
  db c = Some s ->
  config c = Some cf ->
  c_metrics c = Some m ->
  StoreTransactions cf = true ->
  Txs blk !! i = Some tx ->
  Results blk !! i = Some r ->
  (forall j txj rj, j < i ->
     Txs blk !! j = Some txj -> Results blk !! j = Some rj ->
     put_fault eng
       (archive_records (GetTimestamp blk) (take j (Txs blk)) (Results blk))
       (tx_ID txj) (archive_record (GetTimestamp blk) txj rj).2 = None) ->
  put_fault eng
    (archive_records (GetTimestamp blk) (take i (Txs blk)) (Results blk))
    (tx_ID tx) (archive_record (GetTimestamp blk) tx r).2 = Some e ->
  fst (Accepted eng c blk) = Return (Some e).
Proof.
  intros Hdb Hcf Hm Hst Htx Hr Hbefore Hat.
  pose proof (lookup_lt_Some _ _ _ Htx) as Hi.
  unfold Accepted. rewrite Hdb, Hcf, Hm.
  rewrite <- (take_drop_middle _ _ _ Htx) at 1.
  rewrite Accepted_loop_app.
  rewrite (Accepted_loop_prefix _ _ _ cf); rewrite ?drop_0, ?Hst; [| |intros _].
  - rewrite length_take_le by lia. cbn [Nat.add Accepted_loop].
    rewrite Hr, Hst. unfold Storage.StoreTransaction.
    cbn [app]. cbn in Hat. by rewrite Hat.
  - rewrite length_take_le by lia.
    apply lookup_lt_Some in Hr. lia.
  - intros k tx' r' Htx' Hr'. cbn [Nat.add app] in *.
    pose proof (lookup_lt_Some _ _ _ Htx') as Hk.
    rewrite length_take_le in Hk by lia.
    rewrite lookup_take_lt in Htx' by done.
    rewrite take_take, Nat.min_l by lia.
    by apply Hbefore.
Qed.

(** When every write was staged, the error of the commit is the error of
    [Accepted]. *)
Lemma Accepted_returns_failed_commit eng c blk s cf m e s' :
  db c = Some s ->
  config c = Some cf ->
  c_metrics c = Some m ->
  length (Txs blk) <= length (Results blk) ->
  (StoreTransactions cf = true ->
   forall j txj rj,
     Txs blk !! j = Some txj -> Results blk !! j = Some rj ->
     put_fault eng
       (archive_records (GetTimestamp blk) (take j (Txs blk)) (Results blk))
       (tx_ID txj) (archive_record (GetTimestamp blk) txj rj).2 = None) ->
  commit_fault eng s
    (if StoreTransactions cf
     then archive_records (GetTimestamp blk) (Txs blk) (Results blk)
     else []) = Some (e, s') ->
  fst (Accepted eng c blk) = Return (Some e).
Proof.
  intros Hdb Hcf Hm Hlen Hput Hc. unfold Accepted. rewrite Hdb, Hcf, Hm.
  rewrite (Accepted_loop_prefix eng _ _ cf); rewrite ?drop_0; [|done|].
  - cbn [app]. unfold Write. by rewrite Hc.
  - intros Hst k tx r Htx Hr. cbn [Nat.add app]. by apply Hput.
Qed.

(** C9, as the code has it. Every error of a collaborator is returned to the
    caller, none is dropped; [Initialize] adds a context to the genesis
    error alone ("unable to read genesis") and returns the errors of
    metrics, configuration, storage, handler and gossiper as it got them;
    [Accepted] returns the engine's staging or commit error as it got it:
    the error of the first write the engine refuses, and, when every write
    was staged, the error of the commit. *)
Theorem errors_returned_as_raised host inner_ ctx gatherer genesisBytes
    upgradeBytes configBytes st eng c blk :
  out_err (fst (Initialize host inner_ ctx gatherer genesisBytes upgradeBytes
                  configBytes st))
  = match newMetrics host gatherer with
    | inl e => Some e
    | inr _ =>
    match config_New host configBytes with
    | inl e => Some e
    | inr cf =>
    match genesis_New host genesisBytes upgradeBytes with
    | inl e => Some (ErrWrap "unable to read genesis" e)
    | inr _ =>
    match hstorage_New host (ChainDataDir ctx) "db" gatherer with
    | inl e => Some e
    | inr _ =>
    match NewJSONRPCHandler host (consts_Name host) NewJSONRPCServer with
    | inl e => Some e
    | inr _ =>
        if TestMode cf then None
        else proposer_fault host inner_ (DefaultProposerConfig host)
    end end end end end
  /\ (forall e, fst (Accepted eng c blk) = Return (Some e) ->
        (exists b k v, put_fault eng b k v = Some e)
        \/ (exists s b s', commit_fault eng s b = Some (e, s')))
  /\ (forall s e,
        db c = Some s ->
        fst (fst (Accepted_loop eng (config c) (GetTimestamp blk) (Results blk)
                    0 (Txs blk) (c_metrics c) [])) = LoopReturn e ->
        fst (Accepted eng c blk) = Return (Some e))
  /\ (forall s m b e s',
        db c = Some s ->
        Accepted_loop eng (config c) (GetTimestamp blk) (Results blk) 0
          (Txs blk) (c_metrics c) [] = (LoopDone, m, b) ->
        commit_fault eng s b = Some (e, s') ->
        fst (Accepted eng c blk) = Return (Some e))
  /\ (forall s cf m i tx r e,
        db c = Some s ->
        config c = Some cf ->
        c_metrics c = Some m ->
        StoreTransactions cf = true ->
        Txs blk !! i = Some tx ->
        Results blk !! i = Some r ->
        (forall j txj rj, j < i ->
           Txs blk !! j = Some txj -> Results blk !! j = Some rj ->
           put_fault eng
             (archive_records (GetTimestamp blk) (take j (Txs blk))
                (Results blk))
             (tx_ID txj) (archive_record (GetTimestamp blk) txj rj).2
           = None) ->
        put_fault eng
          (archive_records (GetTimestamp blk) (take i (Txs blk))
             (Results blk))
          (tx_ID tx) (archive_record (GetTimestamp blk) tx r).2 = Some e ->
        fst (Accepted eng c blk) = Return (Some e))
  /\ (forall s cf m e s',
        db c = Some s ->
        config c = Some cf ->
        c_metrics c = Some m ->
        length (Txs blk) <= length (Results blk) ->
        (StoreTransactions cf = true ->
         forall j txj rj,
           Txs blk !! j = Some txj -> Results blk !! j = Some rj ->
           put_fault eng
             (archive_records (GetTimestamp blk) (take j (Txs blk))
                (Results blk))
             (tx_ID txj) (archive_record (GetTimestamp blk) txj rj).2
           = None) ->
        commit_fault eng s
          (if StoreTransactions cf
           then archive_records (GetTimestamp blk) (Txs blk) (Results blk)
           else []) = Some (e, s') ->
        fst (Accepted eng c blk) = Return (Some e)).
Proof.
  split; [apply Initialize_error_origin|].
  split; [intros e; apply Accepted_error_origin|].
  split; [|split; [|split]].
  - intros s e Hdb Hloop. unfold Accepted. rewrite Hdb.
    destruct (Accepted_loop _ _ _ _ _ _ _ _) as [[ex m] b].
    cbn in Hloop. by subst ex.
  - intros s m b e s' Hdb Hloop Hc. unfold Accepted, Write.
    by rewrite Hdb, Hloop, Hc.
  - intros s cf m i tx r e. apply Accepted_returns_refused_write.
  - intros s cf m e s'. apply Accepted_returns_failed_commit.
Qed.

(** The genesis error comes back with its context; the error of the
    refused second write and the error of the commit as they are. *)
Lemma errors_returned_as_raised_witness :
  out_err (fst (Initialize (sample_host config_archive) sample_vm sample_ctx
                  sample_gatherer [] [] [] fresh))
    = Some (ErrWrap "unable to read genesis"
              (ErrNew "unexpected end of JSON input"))
  /\ fst (Accepted (engine_full 1) (controller_with config_archive) block3)
     = Return (Some (ErrNew "batch is full"))
  /\ fst (Accepted engine_readonly (controller_with config_archive) block3)
     = Return (Some (ErrNew "database is read-only")).
Proof.
  split; [|split].
  - exact (proj1 (errors_returned_as_raised (sample_host config_archive)
                    sample_vm sample_ctx sample_gatherer [] [] [] fresh
                    engine_ok Controller_zero block3)).
  - refine (proj1 (proj2 (proj2 (proj2 (proj2
              (errors_returned_as_raised (sample_host config_archive)
                 sample_vm sample_ctx sample_gatherer [] [] [] fresh
                 (engine_full 1) (controller_with config_archive) block3)))))
              ∅ config_archive {| transfer := 0 |} 1
              {| tx_ID := 102%N; Actions := [Transfer 8 60] |}
              {| Success := false; Units := [0%N]; Fee := 0 |}
              (ErrNew "batch is full")
              eq_refl eq_refl eq_refl eq_refl eq_refl eq_refl _ eq_refl).
    intros j txj rj Hj Htx Hr. destruct j as [|j]; [reflexivity|lia].
  - refine (proj2 (proj2 (proj2 (proj2 (proj2
              (errors_returned_as_raised (sample_host config_archive)
                 sample_vm sample_ctx sample_gatherer [] [] [] fresh
                 engine_readonly (controller_with config_archive) block3)))))
              ∅ config_archive {| transfer := 0 |}
              (ErrNew "database is read-only") ∅
              eq_refl eq_refl eq_refl (le_n 3) _ eq_refl).
    reflexivity.
Defined.

(** C9, as stated, fails: the error of opening the storage, and the error
    of a refused write, reach the caller bare. *)
Lemma storage_errors_returned_bare :
  hstorage_New (sample_host config_archive) "/locked" "db" sample_gatherer
    = inl (ErrNew "resource temporarily unavailable")
  /\ out_err (fst (Initialize (sample_host config_archive) sample_vm locked_ctx
                     sample_gatherer bytes_empty_object [] [] fresh))
     = Some (ErrNew "resource temporarily unavailable")
  /\ is_wrapped <$> out_err (fst (Initialize (sample_host config_archive)
                                    sample_vm locked_ctx sample_gatherer
                                    bytes_empty_object [] [] fresh))
     = Some false
  /\ fst (Accepted (engine_full 1) (controller_with config_archive) block3)
     = Return (Some (ErrNew "batch is full"))
  /\ is_wrapped (ErrNew "batch is full") = false.
Proof. repeat split. Qed.

(** * Further properties of the controller *)

(** ** What [Accepted] leaves alone *)

Lemma Accepted_config_kept eng c blk :
  config (snd (Accepted eng c blk)) = config c.
Proof.
  unfold Accepted. destruct (db c) as [s|]; [|done].
  destruct (Accepted_loop _ _ _ _ _ _ _ _) as [[ex m] b].
  destruct ex as [|e|why]; [|done|done].
  by destruct (Write eng s b).
Qed.

(** Of the controller, [Accepted] writes the counters and the store only,
    however it ends. *)
Theorem Accepted_frame eng c blk :
  inner (snd (Accepted eng c blk)) = inner c
  /\ snowCtx (snd (Accepted eng c blk)) = snowCtx c
  /\ genesis (snd (Accepted eng c blk)) = genesis c
  /\ config (snd (Accepted eng c blk)) = config c
  /\ stateManager (snd (Accepted eng c blk)) = stateManager c.
Proof.
  unfold Accepted. destruct (db c) as [s|]; [|done].
  destruct (Accepted_loop _ _ _ _ _ _ _ _) as [[ex m] b].
  destruct ex as [|e|why]; [|done|done].
  by destruct (Write eng s b).
Qed.

(** A panic of [Accepted] writes nothing to the store. *)
Theorem Accepted_panic_keeps_store eng c blk why c' :
  Accepted eng c blk = (Panicked why, c') ->
  db c' = db c.
Proof.
  intros Hacc.
  destruct (Accepted_loop eng (config c) (GetTimestamp blk) (Results blk) 0
              (Txs blk) (c_metrics c) []) as [[ex m] b] eqn:Hloop.
  destruct ex as [|e|why'].
  - unfold Accepted in Hacc. destruct (db c) as [s|] eqn:Hdb.
    + rewrite Hloop in Hacc. by destruct (Write eng s b).
    + injection Hacc as _ <-. done.
  - by eapply (Accepted_uncommitted _ _ _ (LoopReturn e)).
  - by eapply (Accepted_uncommitted _ _ _ (LoopPanic why')).
Qed.

Lemma Accepted_panic_keeps_store_witness :
  db (snd (Accepted engine_ok (controller_with config_archive)
             block_short_results)) = Some ∅.
Proof.
  exact (Accepted_panic_keeps_store engine_ok (controller_with config_archive)
           block_short_results (IndexOutOfRange 2 2) _ eq_refl).
Defined.

(** ** The counter only grows *)

Lemma count_actions_grows acts : forall m why m',
  count_actions acts (Some m) = (why, m') ->
  exists mv, m' = Some mv /\ (transfer m <= transfer mv)%N.
Proof.
  intros m why m'. rewrite count_actions_Some. intros [= _ <-].
  eexists. split; [done|]. cbn. lia.
Qed.

Lemma Accepted_loop_grows eng cfg t rs txs : forall i m b ex m' b',
  Accepted_loop eng cfg t rs i txs (Some m) b = (ex, m', b') ->
  exists mv, m' = Some mv /\ (transfer m <= transfer mv)%N.
Proof.
  induction txs as [|tx txs IH]; intros i m b ex m' b'; cbn.
  - intros [= _ <- _]. eauto with lia.
  - destruct (rs !! i) as [r|]; [|intros [= _ <- _]; eauto with lia].
    destruct cfg as [cf|]; [|intros [= _ <- _]; eauto with lia].
    destruct (if StoreTransactions cf then _ else _) as [e|b1];
      [intros [= _ <- _]; eauto with lia|].
    destruct (Success r).
    + rewrite count_actions_Some. intros H.
      apply IH in H as (mv & -> & Hle). eexists. split; [done|].
      cbn in Hle. lia.
    + apply IH.
Qed.

(** However [Accepted] ends (nil, error or panic), counters that were there
    are still there and none has gone down. *)
Theorem Accepted_counter_monotone eng c blk m :
  c_metrics c = Some m ->
  exists m', c_metrics (snd (Accepted eng c blk)) = Some m'
             /\ (transfer m <= transfer m')%N.
Proof.
  intros Hm. unfold Accepted.
  destruct (db c) as [s|]; [|cbn; eauto with lia].
  rewrite Hm.
  destruct (Accepted_loop _ _ _ _ _ _ _ _) as [[ex m1] b] eqn:Hloop.
  apply Accepted_loop_grows in Hloop as (mv & -> & Hle).
  destruct ex as [|e|why]; cbn; [|by eauto..].
  destruct (Write eng s b). cbn. eauto.
Qed.

Lemma Accepted_counter_monotone_witness :
  exists m', c_metrics (snd (Accepted (engine_full 1)
                               (controller_with config_archive) block3))
             = Some m'
             /\ (0 <= transfer m')%N.
Proof.
  exact (Accepted_counter_monotone (engine_full 1)
           (controller_with config_archive) block3 {| transfer := 0 |} eq_refl).
Defined.

(** ** Archival switched off *)

(** With [StoreTransactions] off and a result for every transaction,
    nothing is staged and no write can fail, but [batch.Write()] is still
    called: [Accepted] returns what the engine answers to the commit of an
    empty batch, an error included, with every transfer counted. *)
Theorem Accepted_without_archival eng c blk s cf m :
  db c = Some s ->
  config c = Some cf ->
  c_metrics c = Some m ->
  StoreTransactions cf = false ->
  length (Txs blk) <= length (Results blk) ->
  Accepted eng c blk
  = (Return (fst (Write eng s [])),
     set_db (Some (snd (Write eng s [])))
       (set_metrics
          (Some {| transfer := transfer m
                     + transfer_actions (Txs blk) (Results blk) |}) c)).
Proof.
  intros Hdb Hcf Hm Hst Hlen. unfold Accepted. rewrite Hdb, Hcf, Hm.
  rewrite (Accepted_loop_prefix eng _ _ cf); rewrite ?drop_0, ?Hst;
    [|done|done].
  cbn. by destruct (Write eng s []).
Qed.

Lemma Accepted_without_archival_witness :
  fst (Accepted engine_readonly (controller_with config_plain) block3)
    = Return (Some (ErrNew "database is read-only"))
  /\ c_metrics (snd (Accepted engine_readonly (controller_with config_plain)
                       block3)) = Some {| transfer := 2 |}.
Proof.
  rewrite (Accepted_without_archival engine_readonly
             (controller_with config_plain) block3 ∅ config_plain
             {| transfer := 0 |} eq_refl eq_refl eq_refl eq_refl
             (le_n 3)).
  split; reflexivity.
Defined.

(** ** A failed commit *)

(** When every write was staged and the commit fails, [Accepted] returns the
    commit's error and the transfers of the whole block stay counted: the
    counter runs ahead of the store. *)
Theorem Accepted_commit_failure_keeps_metrics eng c blk s cf m e s' :
  db c = Some s ->
  config c = Some cf ->
  c_metrics c = Some m ->
  length (Txs blk) <= length (Results blk) ->
  (StoreTransactions cf = true ->
   forall j txj rj,
     Txs blk !! j = Some txj -> Results blk !! j = Some rj ->
     put_fault eng
       (archive_records (GetTimestamp blk) (take j (Txs blk)) (Results blk))
       (tx_ID txj) (archive_record (GetTimestamp blk) txj rj).2 = None) ->
  commit_fault eng s
    (if StoreTransactions cf
     then archive_records (GetTimestamp blk) (Txs blk) (Results blk)
     else []) = Some (e, s') ->
  Accepted eng c blk
  = (Return (Some e),
     set_db (Some s')
       (set_metrics
          (Some {| transfer := transfer m
                     + transfer_actions (Txs blk) (Results blk) |}) c)).
Proof.
  intros Hdb Hcf Hm Hlen Hput Hc. unfold Accepted. rewrite Hdb, Hcf, Hm.
  rewrite (Accepted_loop_prefix eng _ _ cf); rewrite ?drop_0; [|done|].
  - cbn [app]. unfold Write. by rewrite Hc.
  - intros Hst k tx r Htx Hr. cbn [Nat.add app]. by apply Hput.
Qed.

Lemma Accepted_commit_failure_keeps_metrics_witness :
  Accepted engine_readonly (controller_with config_archive) block3
  = (Return (Some (ErrNew "database is read-only")),
     set_db (Some ∅)
       (set_metrics (Some {| transfer := 2 |})
          (controller_with config_archive))).
Proof.
  refine (Accepted_commit_failure_keeps_metrics engine_readonly
            (controller_with config_archive) block3 ∅ config_archive
            {| transfer := 0 |} (ErrNew "database is read-only") ∅
            eq_refl eq_refl eq_refl (le_n 3) _ eq_refl).
  reflexivity.
Defined.

(** ** Results that no transaction pairs with *)

Lemma count_actions_panic acts : forall m why m',
  count_actions acts m = (Some why, m') -> why = NilDereference.
Proof.
  induction acts as [|[to v|ty] acts IH]; intros m why m'; cbn; [done| |by eauto].
  destruct m as [mv|]; [by eauto|]. by intros [= <- _].
Qed.

Lemma Accepted_loop_trim eng cfg t rs txs n : forall i m b,
  i + length txs <= n ->
  Accepted_loop eng cfg t (take n rs) i txs m b
  = match Accepted_loop eng cfg t rs i txs m b with
    | (LoopPanic (IndexOutOfRange j _), m', b') =>
        (LoopPanic (IndexOutOfRange j (length (take n rs))), m', b')
    | other => other
    end.
Proof.
  induction txs as [|tx txs IH]; intros i m b Hn; cbn; [done|].
  cbn in Hn. rewrite lookup_take_lt by lia.
  destruct (rs !! i) as [r|]; [|done].
  destruct cfg as [cf|]; [|done].
  destruct (if StoreTransactions cf then _ else _) as [e|b1]; [done|].
  destruct (Success r).
  - destruct (count_actions (Actions tx) m) as [[why|] m1] eqn:Hc.
    + by apply count_actions_panic in Hc as ->.
    + apply IH. lia.
  - apply IH. lia.
Qed.

(** [Accepted] reads a result only at the index of a transaction: results
    past the last transaction change nothing of what it does. *)
Theorem Accepted_ignores_extra_results eng c blk :
  Accepted eng c (trim_results blk) = Accepted eng c blk.
Proof.
  destruct (decide (length (Results blk) <= length (Txs blk))) as [Hle|Hgt].
  { unfold trim_results. rewrite take_ge by done. by destruct blk. }
  unfold Accepted, trim_results. cbn.
  destruct (db c) as [s|]; [|done].
  rewrite Accepted_loop_trim by (cbn; lia).
  pose proof (Accepted_loop_in_bounds eng (config c) (GetTimestamp blk)
                (Results blk) (Txs blk) 0 (c_metrics c) []) as Hb.
  rewrite drop_0 in Hb.
  destruct (Accepted_loop _ _ _ _ _ _ _ _) as [[ex m] b].
  destruct ex as [|e|[j l|]]; try done.
  exfalso. apply (Hb j l); [lia|done].
Qed.

(** ** What a committed block does to the store *)

Lemma apply_batch_app (b1 b2 : Batch) (s : Store) :
  apply_batch (b1 ++ b2) s = apply_batch b2 (apply_batch b1 s).
Proof. unfold apply_batch. apply foldl_app. Qed.

(** Committing a batch is laying its writes, the later over the earlier,
    over the store. *)
Lemma apply_batch_union (b : Batch) : forall (s : Store),
  apply_batch b s = list_to_map (reverse b) ∪ s.
Proof.
  induction b as [|[k v] b IH]; intros s.
  - cbn. by rewrite (left_id_L ∅ (∪)).
  - rewrite apply_batch_cons, IH, reverse_cons, list_to_map_app.
    cbn. rewrite <- (assoc_L (∪)). f_equal.
    by rewrite <- insert_union_l, (left_id_L ∅ (∪)).
Qed.

Lemma apply_batch_idemp (b : Batch) (s : Store) :
  apply_batch b (apply_batch b s) = apply_batch b s.
Proof.
  rewrite !apply_batch_union, (assoc_L (∪)). f_equal.
  apply (idemp_L (∪)).
Qed.

(** The successful pass, in one equation. *)
Lemma Accepted_nil_inv eng c blk s cf c' :
  db c = Some s ->
  config c = Some cf ->
  Accepted eng c blk = (Return None, c') ->
  db c' = Some (apply_batch
                  (if StoreTransactions cf
                   then archive_records (GetTimestamp blk) (Txs blk)
                          (Results blk)
                   else []) s)
  /\ length (Txs blk) <= length (Results blk).
Proof.
  intros Hdb Hcf Hacc. unfold Accepted in Hacc. rewrite Hdb, Hcf in Hacc.
  destruct (Accepted_loop _ _ _ _ _ _ _ _) as [[ex m1] b] eqn:Hloop.
  destruct ex as [|e|why]; [|done|done].
  apply Accepted_loop_done_batch in Hloop as [Hlen ->].
  rewrite drop_0 in *. cbn [app] in Hacc. unfold Write in Hacc.
  destruct (commit_fault eng s _) as [[e s1]|]; [done|].
  by injection Hacc as <-.
Qed.

(** A successful [Accepted] writes under the ids of the block's
    transactions only: every other key of the store reads as before. *)
Theorem Accepted_keeps_other_records eng c blk s cf c' s' k :
  db c = Some s ->
  config c = Some cf ->
  Accepted eng c blk = (Return None, c') ->
  db c' = Some s' ->
  k ∉ tx_ID <$> Txs blk ->
  s' !! k = s !! k.
Proof.
  intros Hdb Hcf Hacc Hdb' Hk.
  destruct (Accepted_nil_inv _ _ _ _ _ _ Hdb Hcf Hacc) as [Hs' Hlen].
  rewrite Hs' in Hdb'. injection Hdb' as <-.
  apply apply_batch_other.
  destruct (StoreTransactions cf); [|by apply not_elem_of_nil].
  intros Hin. apply Hk.
  apply list_elem_of_fmap in Hin as [[k' v] [-> Hin]].
  apply list_elem_of_lookup in Hin as [i Hi].
  unfold archive_records in Hi. apply lookup_zip_with_Some in Hi
    as (tx & r & [= -> _] & Htx & _).
  apply list_elem_of_fmap. exists tx. split; [done|].
  by eapply list_elem_of_lookup_2.
Qed.

Lemma Accepted_keeps_other_records_witness :
  default ∅ (db (snd (Accepted engine_ok (controller_over store_one config_archive)
                        block3))) !! 7%N
  = Some {| rec_timestamp := 1; rec_success := true; rec_units := [];
            rec_fee := 3 |}.
Proof.
  refine (eq_trans
            (Accepted_keeps_other_records engine_ok
               (controller_over store_one config_archive) block3 store_one
               config_archive
               (snd (Accepted engine_ok
                       (controller_over store_one config_archive) block3))
               (default ∅ (db (snd (Accepted engine_ok
                                      (controller_over store_one config_archive)
                                      block3))))
               7%N eq_refl eq_refl eq_refl eq_refl _) eq_refl).
  cbn. intros H. repeat (apply elem_of_cons in H as [H|H]; [done|]).
  by apply elem_of_nil in H.
Defined.

(** When two transactions of a block carry one id, the record of the later
    one is the one the store keeps: after a successful [Accepted] with
    archival on, an id reads back the record of the last transaction that
    carries it. *)
Theorem Accepted_last_record_wins eng c blk s cf c' i tx r :
  db c = Some s ->
  config c = Some cf ->
  StoreTransactions cf = true ->
  Accepted eng c blk = (Return None, c') ->
  Txs blk !! i = Some tx ->
  Results blk !! i = Some r ->
  (forall j txj, i < j -> Txs blk !! j = Some txj -> tx_ID txj <> tx_ID tx) ->
  exists s', db c' = Some s'
    /\ s' !! tx_ID tx
       = Some {| rec_timestamp := GetTimestamp blk; rec_success := Success r;
                 rec_units := Units r; rec_fee := Fee r |}.
Proof.
  intros Hdb Hcf Hst Hacc Htx Hr Hlast.
  destruct (Accepted_nil_inv _ _ _ _ _ _ Hdb Hcf Hacc) as [Hs' _].
  rewrite Hst in Hs'. eexists. split; [done|].
  pose proof (archive_records_lookup (GetTimestamp blk) _ _ _ _ _ Htx Hr) as Hi.
  rewrite <- (take_drop_middle _ _ _ Hi).
  rewrite apply_batch_app. unfold archive_record at 1.
  rewrite apply_batch_cons, apply_batch_other; [apply lookup_insert_eq|].
  intros Hin.
  apply list_elem_of_fmap in Hin as [[k v] [Hk Hin]]. cbn in Hk.
  apply list_elem_of_lookup in Hin as [j Hj].
  rewrite lookup_drop in Hj. unfold archive_records in Hj.
  apply lookup_zip_with_Some in Hj as (txj & rj & [= -> _] & Htxj & _).
  apply (Hlast (S i + j) txj); [lia|done|done].
Qed.

Lemma Accepted_last_record_wins_witness :
  exists s',
    db (snd (Accepted engine_ok (controller_with config_archive) block_same_id))
      = Some s'
    /\ s' !! 301%N
       = Some {| rec_timestamp := 3000; rec_success := false;
                 rec_units := [1%N]; rec_fee := 2 |}.
Proof.
  refine (Accepted_last_record_wins engine_ok (controller_with config_archive)
            block_same_id ∅ config_archive _ 1
            {| tx_ID := 301%N; Actions := [OtherAction 9] |}
            {| Success := false; Units := [1%N]; Fee := 2 |}
            eq_refl eq_refl eq_refl eq_refl eq_refl eq_refl _).
  intros j txj Hj Htx. destruct j as [|[|j]]; [lia|lia|]. discriminate Htx.
Defined.

(** ** The same block, accepted twice *)

Lemma Accepted_nil_metrics eng c blk cf m c' :
  config c = Some cf ->
  c_metrics c = Some m ->
  Accepted eng c blk = (Return None, c') ->
  c_metrics c'
  = Some {| transfer := transfer m + transfer_actions (Txs blk) (Results blk) |}.
Proof.
  intros Hcf Hm Hacc. unfold Accepted in Hacc.
  destruct (db c) as [s|]; [|done]. rewrite Hcf, Hm in Hacc.
  destruct (Accepted_loop _ _ _ _ _ _ _ _) as [[ex m1] b] eqn:Hloop.
  destruct ex as [|e|why]; [|done|done].
  apply Accepted_loop_done_metrics in Hloop as ->. rewrite drop_0 in Hacc.
  destruct (Write eng s b). by injection Hacc as _ <-.
Qed.

(** [Accepted] does not recognise a block it has seen: a second successful
    call on the same block leaves the store as the first one left it, and
    counts the transfers of the block a second time. *)
Theorem Accepted_twice eng c blk s cf m c1 c2 :
  db c = Some s ->
  config c = Some cf ->
  c_metrics c = Some m ->
  Accepted eng c blk = (Return None, c1) ->
  Accepted eng c1 blk = (Return None, c2) ->
  db c2 = db c1
  /\ c_metrics c2
     = Some {| transfer := transfer m
                 + 2 * transfer_actions (Txs blk) (Results blk) |}.
Proof.
  intros Hdb Hcf Hm H1 H2.
  destruct (Accepted_nil_inv _ _ _ _ _ _ Hdb Hcf H1) as [Hdb1 _].
  assert (Hcf1 : config c1 = Some cf).
  { rewrite <- Hcf. replace c1 with (snd (Accepted eng c blk)) by by rewrite H1.
    apply Accepted_config_kept. }
  destruct (Accepted_nil_inv _ _ _ _ _ _ Hdb1 Hcf1 H2) as [Hdb2 _].
  split.
  - by rewrite Hdb2, Hdb1, apply_batch_idemp.
  - pose proof (Accepted_nil_metrics _ _ _ _ _ _ Hcf Hm H1) as Hm1.
    rewrite (Accepted_nil_metrics _ _ _ _ _ _ Hcf1 Hm1 H2). cbn.
    do 2 f_equal. lia.
Qed.

Lemma Accepted_twice_witness :
  db (snd (Accepted engine_ok
             (snd (Accepted engine_ok (controller_with config_archive) block3))
             block3))
  = db (snd (Accepted engine_ok (controller_with config_archive) block3))
  /\ c_metrics (snd (Accepted engine_ok
                       (snd (Accepted engine_ok
                               (controller_with config_archive) block3))
                       block3))
     = Some {| transfer := 4 |}.
Proof.
  exact (Accepted_twice engine_ok (controller_with config_archive) block3 ∅
           config_archive {| transfer := 0 |} _ _
           eq_refl eq_refl eq_refl eq_refl eq_refl).
Defined.

(** ** [Initialize], path by path *)

Section InitializePaths.

Variable host : Host.
Variables (inner_ : VM) (ctx : SnowContext) (gatherer : Gatherer).
Variables genesisBytes upgradeBytes configBytes : list Byte.byte.
Variable st : InitState.

(** When every collaborator answers, [Initialize] returns the parsed
    genesis, the pair of the mode, a handler map with the one JSON-RPC
    endpoint, the registries and the engines; the controller holds exactly
    what was passed in and what was built, whatever it held before; and the
    outside saw the registration, the log level, the log lines and the
    opening of the storage, in that order.  In test mode the proposer is not
    built, so it cannot fail. *)
Theorem Initialize_success m cf g s h :
  newMetrics host gatherer = inr m ->
  config_New host configBytes = inr cf ->
  genesis_New host genesisBytes upgradeBytes = inr g ->
  hstorage_New host (ChainDataDir ctx) "db" gatherer = inr s ->
  NewJSONRPCHandler host (consts_Name host) NewJSONRPCServer = inr h ->
  (TestMode cf = false ->
   proposer_fault host inner_ (DefaultProposerConfig host) = None) ->
  Initialize host inner_ ctx gatherer genesisBytes upgradeBytes configBytes st
  = ({| out_genesis := Some g;
        out_builder :=
          Some (if TestMode cf then NewManual inner_ else NewTime inner_);
        out_gossiper :=
          Some (if TestMode cf then NewManualGossiper inner_
                else Proposer inner_ (DefaultProposerConfig host));
        out_handlers := Some {[ JSONRPCEndpoint host := h ]};
        out_actionRegistry := ActionRegistry host;
        out_authRegistry := AuthRegistry host;
        out_engines := Some (auth_Engines host);
        out_err := None |},
     {| ctrl := {| inner := Some inner_; snowCtx := Some ctx;
                   genesis := Some g; config := Some cf;
                   stateManager := Some StateManager_empty;
                   c_metrics := Some m; db := Some s |};
        effects :=
          effects st
          ++ [RegisterMetrics gatherer; SetLevel (LogLevel cf);
              LogInfo "initialized config"; LogInfo "loaded genesis";
              OpenStorage (ChainDataDir ctx) "db"]
          ++ (if TestMode cf
              then [LogInfo "running build and gossip in test mode"]
              else []) |}).
Proof.
  intros Hm Hcf Hg Hs Hh Hp. run_init.
  rewrite Hm, Hcf. cbn. rewrite Hg, Hs. cbn. rewrite Hh. cbn.
  destruct (TestMode cf); cbn.
  - by rewrite <- !app_assoc.
  - rewrite Hp by done. cbn. by rewrite <- !app_assoc.
Qed.

(** On a malformed genesis [Initialize] returns the parser's error under
    the context "unable to read genesis"; by then the metrics are
    registered and the configured log level is applied, and the storage has
    not been opened: the [db] field is as it was. *)
Theorem Initialize_genesis_failure m cf e :
  newMetrics host gatherer = inr m ->
  config_New host configBytes = inr cf ->
  genesis_New host genesisBytes upgradeBytes = inl e ->
  Initialize host inner_ ctx gatherer genesisBytes upgradeBytes configBytes st
  = (failed (ErrWrap "unable to read genesis" e),
     {| ctrl := set_genesis None
                  (set_config (Some cf)
                     (set_metrics (Some m) (entered inner_ ctx (ctrl st))));
        effects :=
          effects st
          ++ [RegisterMetrics gatherer; SetLevel (LogLevel cf);
              LogInfo "initialized config"] |})
  /\ db (ctrl (snd (Initialize host inner_ ctx gatherer genesisBytes
                      upgradeBytes configBytes st))) = db (ctrl st).
Proof.
  intros Hm Hcf Hg. run_init. rewrite Hm, Hcf. cbn. rewrite Hg. cbn.
  by rewrite <- !app_assoc.
Qed.

(** [Initialize] opens the storage only once the metrics are registered and
    both the configuration and the genesis have parsed; and the directory
    it opens is the chain's. *)
Theorem Initialize_opens_storage_last dir name :
  OpenStorage dir name
    ∈ added_effects st
        (snd (Initialize host inner_ ctx gatherer genesisBytes upgradeBytes
                configBytes st)) ->
  dir = ChainDataDir ctx /\ name = "db"
  /\ (exists m, newMetrics host gatherer = inr m)
  /\ (exists cf, config_New host configBytes = inr cf)
  /\ (exists g, genesis_New host genesisBytes upgradeBytes = inr g).
Proof.
  unfold added_effects. run_init.
  split_collaborators host; rewrite <- ?app_assoc, drop_app_length; cbn;
    intros Hin;
    repeat (apply elem_of_cons in Hin as [Hin|Hin]; [try discriminate Hin|]);
    try (by apply elem_of_nil in Hin);
    injection Hin as -> ->; eauto 10.
Qed.

(** However [Initialize] ends, the controller holds the handle, the chain
    context and a state manager from then on: [StateManager()] is non-nil
    even after a failed start. *)
Theorem Initialize_sets_state_manager :
  StateManager_of (ctrl (snd (Initialize host inner_ ctx gatherer genesisBytes
                                upgradeBytes configBytes st)))
    = Some StateManager_empty
  /\ inner (ctrl (snd (Initialize host inner_ ctx gatherer genesisBytes
                         upgradeBytes configBytes st))) = Some inner_
  /\ snowCtx (ctrl (snd (Initialize host inner_ ctx gatherer genesisBytes
                           upgradeBytes configBytes st))) = Some ctx.
Proof.
  unfold StateManager_of. run_init. split_collaborators host; done.
Qed.

(** A start that returned no error left every field of the controller
    set. *)
Lemma Initialize_ok_fields :
  out_err (fst (Initialize host inner_ ctx gatherer genesisBytes upgradeBytes
                  configBytes st)) = None ->
  exists m cf g s,
    genesis_New host genesisBytes upgradeBytes = inr g /\
    ctrl (snd (Initialize host inner_ ctx gatherer genesisBytes upgradeBytes
                 configBytes st))
    = {| inner := Some inner_; snowCtx := Some ctx; genesis := Some g;
         config := Some cf; stateManager := Some StateManager_empty;
         c_metrics := Some m; db := Some s |}.
Proof.
  run_init. split_collaborators host; intros Herr; try discriminate Herr;
    eauto 10.
Qed.

(** After a start that returned no error, [Rules] is defined at every
    timestamp: it gives the genesis that was parsed with the two
    identifiers of the chain context that was passed in. *)
Theorem Rules_after_Initialize t :
  out_err (fst (Initialize host inner_ ctx gatherer genesisBytes upgradeBytes
                  configBytes st)) = None ->
  exists g,
    genesis_New host genesisBytes upgradeBytes = inr g /\
    fst (Rules (ctrl (snd (Initialize host inner_ ctx gatherer genesisBytes
                             upgradeBytes configBytes st))) t)
    = inr {| rules_g := Some g; rules_networkID := NetworkID ctx;
             rules_chainID := ChainID ctx |}.
Proof.
  intros Herr. destruct (Initialize_ok_fields Herr) as (m & cf & g & s & Hg & ->).
  exists g. split; [done|]. reflexivity.
Qed.

End InitializePaths.

Lemma Initialize_success_witness :
  out_handlers (fst (Initialize (sample_host config_test) sample_vm sample_ctx
                       sample_gatherer bytes_empty_object [] [] fresh))
    = Some {[ "/morpheusapi" := {| handler_name := "morpheusvm" |} ]}
  /\ effects (snd (Initialize (sample_host config_test) sample_vm sample_ctx
                     sample_gatherer bytes_empty_object [] [] fresh))
     = [RegisterMetrics sample_gatherer; SetLevel 0;
        LogInfo "initialized config"; LogInfo "loaded genesis";
        OpenStorage "/chain" "db";
        LogInfo "running build and gossip in test mode"].
Proof.
  rewrite (Initialize_success (sample_host config_test) sample_vm sample_ctx
             sample_gatherer bytes_empty_object [] [] fresh
             {| transfer := 0 |} config_test
             {| genesis_raw := bytes_empty_object |} ∅
             {| handler_name := "morpheusvm" |}
             eq_refl eq_refl eq_refl eq_refl eq_refl (fun _ => eq_refl)).
  split; reflexivity.
Defined.

Lemma Initialize_genesis_failure_witness :
  Initialize (sample_host config_archive) sample_vm sample_ctx sample_gatherer
    [] [] [] fresh
  = (failed (ErrWrap "unable to read genesis"
               (ErrNew "unexpected end of JSON input")),
     {| ctrl := set_genesis None
                  (set_config (Some config_archive)
                     (set_metrics (Some {| transfer := 0 |})
                        (entered sample_vm sample_ctx Controller_zero)));
        effects := [RegisterMetrics sample_gatherer; SetLevel 0;
                    LogInfo "initialized config"] |}).
Proof.
  exact (proj1 (Initialize_genesis_failure (sample_host config_archive)
                  sample_vm sample_ctx sample_gatherer [] [] [] fresh
                  {| transfer := 0 |} config_archive
                  (ErrNew "unexpected end of JSON input")
                  eq_refl eq_refl eq_refl)).
Defined.

Lemma Initialize_opens_storage_last_witness :
  "/locked" = ChainDataDir locked_ctx /\ "db" = "db"
  /\ (exists m, newMetrics (sample_host config_archive) sample_gatherer = inr m)
  /\ (exists cf, config_New (sample_host config_archive) [] = inr cf)
  /\ (exists g, genesis_New (sample_host config_archive) bytes_empty_object []
                = inr g).
Proof.
  apply (Initialize_opens_storage_last (sample_host config_archive) sample_vm
           locked_ctx sample_gatherer bytes_empty_object [] [] fresh).
  cbn. do 4 right. left.
Defined.

Lemma Rules_after_Initialize_witness :
  exists g,
    genesis_New (sample_host config_test) bytes_empty_object [] = inr g /\
    fst (Rules (ctrl (snd (Initialize (sample_host config_test) sample_vm
                             sample_ctx sample_gatherer bytes_empty_object []
                             [] fresh))) 1000)
    = inr {| rules_g := Some g; rules_networkID := 1337;
             rules_chainID := 77%N |}.
Proof.
  exact (Rules_after_Initialize (sample_host config_test) sample_vm sample_ctx
           sample_gatherer bytes_empty_object [] [] fresh 1000 eq_refl).
Defined.

(** ** [Accepted] on a started controller *)

Lemma Accepted_loop_no_panic eng cf t rs txs : forall i m b why,
  length txs <= length (drop i rs) ->
  fst (fst (Accepted_loop eng (Some cf) t rs i txs (Some m) b))
  <> LoopPanic why.
Proof.
  induction txs as [|tx txs IH]; intros i m b why Hlen; cbn; [done|].
  destruct (rs !! i) as [r|] eqn:Hr.
  2:{ apply lookup_ge_None in Hr. rewrite length_drop in Hlen.
      cbn in Hlen. lia. }
  rewrite (drop_S _ _ _ Hr) in Hlen. cbn in Hlen.
  destruct (if StoreTransactions cf then _ else _) as [e|b1]; [done|].
  destruct (Success r).
  - rewrite count_actions_Some. apply IH. lia.
  - apply IH. lia.
Qed.

Lemma Accepted_returns_on_ready eng c blk s cf m :
  db c = Some s ->
  config c = Some cf ->
  c_metrics c = Some m ->
  length (Txs blk) <= length (Results blk) ->
  exists err, fst (Accepted eng c blk) = Return err.
Proof.
  intros Hdb Hcf Hm Hlen. unfold Accepted. rewrite Hdb, Hcf, Hm.
  pose proof (Accepted_loop_no_panic eng cf (GetTimestamp blk) (Results blk)
                (Txs blk) 0 m []) as Hnp.
  rewrite drop_0 in Hnp.
  destruct (Accepted_loop _ _ _ _ _ _ _ _) as [[ex m1] b].
  destruct ex as [|e|why]; cbn.
  - destruct (Write eng s b). cbn. eauto.
  - eauto.
  - exfalso. by apply (Hnp why).
Qed.

(** ** Nil entries *)

(** On a block none of whose entries is nil, [Accepted] over the pointers
    is [Accepted] over the values. *)
Lemma Accepted_loop_ptr_of_values eng cfg t rs txs : forall i m b,
  Accepted_loop_ptr eng cfg t (Some <$> rs) i (Some <$> txs) m b
  = Accepted_loop eng cfg t rs i txs m b.
Proof.
  induction txs as [|tx txs IH]; intros i m b; cbn; [done|].
  rewrite list_lookup_fmap, length_fmap.
  destruct (rs !! i) as [r|]; cbn; [|done].
  destruct cfg as [cf|]; [|done].
  destruct (StoreTransactions cf).
  - destruct (Storage.StoreTransaction eng b _ _ _ _ _) as [e|b1]; [done|].
    destruct (Success r); [|apply IH].
    destruct (count_actions (Actions tx) m) as [[why|] m1]; [done|apply IH].
  - destruct (Success r); [|apply IH].
    destruct (count_actions (Actions tx) m) as [[why|] m1]; [done|apply IH].
Qed.

Lemma Accepted_ptr_of_values eng c blk :
  Accepted_ptr eng c (of_values blk) = Accepted eng c blk.
Proof.
  unfold Accepted_ptr, Accepted, of_values. cbn.
  by rewrite Accepted_loop_ptr_of_values.
Qed.

Lemma Forall_is_Some_fmap {A} (l : list (option A)) :
  Forall is_Some l -> exists l', l = Some <$> l'.
Proof.
  induction 1 as [|x l [y ->] _ [l' ->]].
  - by exists [].
  - by exists (y :: l').
Qed.

Lemma Accepted_ptr_returns_on_ready eng c pb s cf m :
  db c = Some s ->
  config c = Some cf ->
  c_metrics c = Some m ->
  length (ptr_Txs pb) <= length (ptr_Results pb) ->
  Forall is_Some (ptr_Txs pb) ->
  Forall is_Some (ptr_Results pb) ->
  exists err, fst (Accepted_ptr eng c pb) = Return err.
Proof.
  intros Hdb Hcf Hm Hlen Htxs Hrs.
  apply Forall_is_Some_fmap in Htxs as [txs Htxs].
  apply Forall_is_Some_fmap in Hrs as [rs Hrs].
  replace pb with (of_values {| Txs := txs; Results := rs;
                                GetTimestamp := ptr_Timestamp pb |})
    by (destruct pb; cbn in *; by subst).
  rewrite Accepted_ptr_of_values.
  eapply Accepted_returns_on_ready; try done.
  cbn. rewrite Htxs, Hrs, !length_fmap in Hlen. done.
Qed.

(** With the store, the configuration and the counters in place, [Accepted]
    on a block that has a result for every transaction and no nil entry in
    its two slices does not panic: it returns nil or an error of the
    engine.  The condition on the entries is needed: when the result of the
    first transaction is nil, [Accepted] panics on it, and the store is as
    it was. *)
Theorem Accepted_ptr_returns eng c pb s cf m :
  db c = Some s ->
  config c = Some cf ->
  c_metrics c = Some m ->
  (length (ptr_Txs pb) <= length (ptr_Results pb) ->
   Forall is_Some (ptr_Txs pb) ->
   Forall is_Some (ptr_Results pb) ->
   exists err, fst (Accepted_ptr eng c pb) = Return err)
  /\ (forall tx txs rest,
        ptr_Txs pb = tx :: txs ->
        ptr_Results pb = None :: rest ->
        fst (Accepted_ptr eng c pb) = Panicked NilDereference
        /\ db (snd (Accepted_ptr eng c pb)) = Some s).
Proof.
  intros Hdb Hcf Hm. split.
  - apply (Accepted_ptr_returns_on_ready eng c pb s cf m Hdb Hcf Hm).
  - intros tx txs rest Htxs Hrs. unfold Accepted_ptr.
    rewrite Hdb, Hcf, Hm, Htxs, Hrs. cbn.
    destruct (StoreTransactions cf), tx; cbn; by rewrite Hdb.
Qed.

Lemma Accepted_ptr_returns_witness :
  (exists err,
     fst (Accepted_ptr (engine_full 1) (controller_with config_archive)
            (of_values block3)) = Return err)
  /\ fst (Accepted_ptr engine_ok (controller_with config_archive)
            block3_nil_result) = Panicked NilDereference
  /\ db (snd (Accepted_ptr engine_ok (controller_with config_archive)
                block3_nil_result)) = Some ∅.
Proof.
  split.
  - refine (proj1 (Accepted_ptr_returns (engine_full 1)
                     (controller_with config_archive) (of_values block3) ∅
                     config_archive {| transfer := 0 |}
                     eq_refl eq_refl eq_refl) (le_n 3) _ _);
      cbn; repeat constructor; eexists; reflexivity.
  - exact (proj2 (Accepted_ptr_returns engine_ok
                    (controller_with config_archive) block3_nil_result ∅
                    config_archive {| transfer := 0 |}
                    eq_refl eq_refl eq_refl) _ _ _ eq_refl eq_refl).
Defined.

(** A controller whose [Initialize] returned no error accepts blocks: on a
    block with a result for every transaction and no nil entry in its two
    slices [Accepted] returns, whatever the engine does. *)
Theorem Accepted_ptr_after_Initialize host inner_ ctx gatherer genesisBytes
    upgradeBytes configBytes st eng pb :
  out_err (fst (Initialize host inner_ ctx gatherer genesisBytes upgradeBytes
                  configBytes st)) = None ->
  length (ptr_Txs pb) <= length (ptr_Results pb) ->
  Forall is_Some (ptr_Txs pb) ->
  Forall is_Some (ptr_Results pb) ->
  exists err,
    fst (Accepted_ptr eng
           (ctrl (snd (Initialize host inner_ ctx gatherer genesisBytes
                         upgradeBytes configBytes st))) pb)
    = Return err.
Proof.
  intros Herr Hlen Htxs Hrs.
  destruct (Initialize_ok_fields _ _ _ _ _ _ _ _ Herr)
    as (m & cf & g & s & _ & ->).
  by eapply Accepted_ptr_returns_on_ready.
Qed.

Lemma Accepted_ptr_after_Initialize_witness :
  exists err,
    fst (Accepted_ptr engine_ok
           (ctrl (snd (Initialize (sample_host config_archive) sample_vm
                         sample_ctx sample_gatherer bytes_empty_object [] []
                         fresh))) (of_values block3))
    = Return err.
Proof.
  refine (Accepted_ptr_after_Initialize (sample_host config_archive) sample_vm
            sample_ctx sample_gatherer bytes_empty_object [] [] fresh engine_ok
            (of_values block3) eq_refl (le_n 3) _ _);
    cbn; repeat constructor; eexists; reflexivity.
Defined.

(** ** The id of the VM *)

Lemma copy_make n (src : list Byte.byte) :
  consts.copy (consts.make n) src = resize n Byte.x00 src.
Proof.
  unfold consts.copy, consts.make.
  by rewrite length_replicate, drop_replicate, resize_spec.
Qed.

Lemma init_for_resize ToID name :
  (forall b, length b = consts.IDLen -> ToID b = inr b) ->
  consts.init_for ToID name
  = consts.IDSet (resize consts.IDLen Byte.x00
                    (String.list_byte_of_string name)).
Proof.
  intros HToID. unfold consts.init_for. rewrite copy_make.
  by rewrite HToID by apply length_resize.
Qed.

(** As soon as [ids.ToID] takes slices of [ids.IDLen] bytes, [init] does
    not panic, whatever the name of the package: the slice it hands over
    always has that length, and the id is the name cut to [ids.IDLen] bytes
    and filled up with zero bytes. *)
Theorem init_sets_padded_name ToID name :
  (forall b, length b = consts.IDLen -> ToID b = inr b) ->
  consts.init_for ToID name
    = consts.IDSet (resize consts.IDLen Byte.x00
                      (String.list_byte_of_string name))
  /\ length (resize consts.IDLen Byte.x00 (String.list_byte_of_string name))
     = consts.IDLen.
Proof.
  intros HToID. split; [by apply init_for_resize|apply length_resize].
Qed.

Lemma sample_ToID_accepts b :
  length b = consts.IDLen -> consts.sample_ToID b = inr b.
Proof. intros H. unfold consts.sample_ToID. by rewrite H. Qed.

Lemma init_sets_padded_name_witness :
  consts.init consts.sample_ToID
  = consts.IDSet ([Byte.x74; Byte.x6f; Byte.x6b; Byte.x65; Byte.x6e; Byte.x76;
                   Byte.x6d] ++ replicate 25 Byte.x00).
Proof.
  exact (proj1 (init_sets_padded_name consts.sample_ToID consts.Name
                  sample_ToID_accepts)).
Defined.

Lemma pad_inj (l1 : list Byte.byte) : forall l2 a b,
  Forall (fun x => x <> Byte.x00) l1 ->
  Forall (fun x => x <> Byte.x00) l2 ->
  l1 ++ replicate a Byte.x00 = l2 ++ replicate b Byte.x00 ->
  l1 = l2.
Proof.
  induction l1 as [|x l1 IH]; intros [|y l2] a b H1 H2 Heq; cbn in Heq.
  - done.
  - destruct a as [|a]; [done|]. injection Heq as <- _.
    by apply Forall_cons in H2 as [? _].
  - destruct b as [|b]; [done|]. injection Heq as -> _.
    by apply Forall_cons in H1 as [? _].
  - injection Heq as -> Heq.
    apply Forall_cons in H1 as [_ H1]. apply Forall_cons in H2 as [_ H2].
    f_equal. by eapply IH.
Qed.

Lemma plain_name_spec name :
  plain_name name = true ->
  length (String.list_byte_of_string name) <= consts.IDLen
  /\ Forall (fun x => x <> Byte.x00) (String.list_byte_of_string name).
Proof.
  unfold plain_name. intros H. apply andb_true_iff in H as [Hlen Hnz].
  split; [by apply Nat.leb_le|].
  apply Forall_forall. intros x Hx.
  rewrite forallb_forall in Hnz. apply list_elem_of_In in Hx.
  specialize (Hnz x Hx). apply negb_true_iff in Hnz.
  by apply Byte.eqb_false.
Qed.

(** Two packages whose names differ, fit in an id and hold no zero byte get
    different ids. *)
Theorem init_separates_names ToID name1 name2 :
  (forall b, length b = consts.IDLen -> ToID b = inr b) ->
  plain_name name1 = true ->
  plain_name name2 = true ->
  name1 <> name2 ->
  consts.init_for ToID name1 <> consts.init_for ToID name2.
Proof.
  intros HToID H1 H2 Hne Heq. apply Hne.
  apply plain_name_spec in H1 as [Hl1 Hz1].
  apply plain_name_spec in H2 as [Hl2 Hz2].
  rewrite (init_for_resize ToID name1 HToID) in Heq.
  rewrite (init_for_resize ToID name2 HToID) in Heq.
  injection Heq as Heq. rewrite !resize_spec, !take_ge in Heq by done.
  apply pad_inj in Heq; [|done|done].
  rewrite <- (String.string_of_list_byte_of_string name1).
  rewrite <- (String.string_of_list_byte_of_string name2).
  by rewrite Heq.
Qed.

Lemma init_separates_names_witness :
  consts.init_for consts.sample_ToID "tokenvm"
  <> consts.init_for consts.sample_ToID "morpheusvm".
Proof.
  apply (init_separates_names consts.sample_ToID "tokenvm" "morpheusvm"
           sample_ToID_accepts eq_refl eq_refl).
  discriminate.
Defined.
